(** * Address book assistant (bot.py): fields, records, the address book
      and the upcoming-birthday query, embedded as Rocq functions.

    Python strings are modelled as [string]; a character is a code point
    below 256 (Latin-1).  Exceptions are values of [exn] carried by the
    [result] monad; methods that mutate an object return the object
    after the call together with the outcome. *)

From Stdlib Require Import ZArith List String Ascii Bool Lia DecimalString.
Import ListNotations.

Local Open Scope string_scope.
Local Open Scope Z_scope.

(* ================================================================== *)
(** ** Exceptions and results *)

Inductive exn : Type :=
| ValueError (msg : string)
| KeyError (msg : string)
| OverflowError (msg : string)
| UnpicklingError (msg : string).

Inductive result (A : Type) : Type :=
| Ok (a : A)
| Raise (e : exn).

Arguments Ok {A} a.
Arguments Raise {A} e.

Definition bind {A B : Type} (m : result A) (k : A -> result B) : result B :=
  match m with
  | Ok a => k a
  | Raise e => Raise e
  end.

Notation "x <- m ;; k" := (bind m (fun x => k))
  (at level 61, m at next level, right associativity).

Definition is_ok {A : Type} (m : result A) : bool :=
  match m with Ok _ => true | Raise _ => false end.

(* ================================================================== *)
(** ** Python [str] operations used by the program *)

Module Str.

Definition code (c : ascii) : Z := Z.of_N (N_of_ascii c).

(** [str.isspace] on one character: the Unicode white space below 256. *)
Definition isspace_char (c : ascii) : bool :=
  let n := code c in
  ((9 <=? n) && (n <=? 13)) || ((28 <=? n) && (n <=? 32))
  || (n =? 133) || (n =? 160).

(** '0' .. '9'. *)
Definition ascii_digit (c : ascii) : bool :=
  let n := code c in (48 <=? n) && (n <=? 57).

(** [str.isdigit] on one character: below 256 these are the ASCII
    digits and the superscript digits U+00B2, U+00B3 and U+00B9. *)
Definition isdigit_char (c : ascii) : bool :=
  let n := code c in
  ascii_digit c || (n =? 178) || (n =? 179) || (n =? 185).

Fixpoint all (p : ascii -> bool) (s : string) : bool :=
  match s with
  | EmptyString => true
  | String c s' => p c && all p s'
  end.

(** [s.isdigit()]: every character is a digit and there is at least one. *)
Definition isdigit (s : string) : bool :=
  match s with
  | EmptyString => false
  | _ => all isdigit_char s
  end.

Fixpoint lstrip (s : string) : string :=
  match s with
  | EmptyString => EmptyString
  | String c s' => if isspace_char c then lstrip s' else s
  end.

Fixpoint rstrip (s : string) : string :=
  match s with
  | EmptyString => EmptyString
  | String c s' =>
      match rstrip s' with
      | EmptyString => if isspace_char c then EmptyString else String c EmptyString
      | r => String c r
      end
  end.

(** [s.strip()]. *)
Definition strip (s : string) : string := rstrip (lstrip s).

(** Truth value of a string: non-empty. *)
Definition truthy (s : string) : bool :=
  match s with EmptyString => false | _ => true end.

Definition len (s : string) : Z := Z.of_nat (String.length s).



(** [sub in s]. *)
Fixpoint contains (sub s : string) : bool :=
  String.prefix sub s
  || match s with
     | EmptyString => false
     | String _ s' => contains sub s'
     end.

Fixpoint join (sep : string) (l : list string) : string :=
  match l with
  | [] => EmptyString
  | [x] => x
  | x :: rest => x ++ sep ++ join sep rest
  end.

End Str.

(* ================================================================== *)
(** ** Fields *)

(** [Name.__init__]: the stored value. *)
Definition Name (value : string) : result string :=
  if negb (Str.truthy (Str.strip value))
  then Raise (ValueError "Name must be a non-empty string.")
  else Ok (Str.strip value).

(** [Phone.__init__]: the stored value. *)
Definition Phone (phone : string) : result string :=
  if negb (Str.truthy (Str.strip phone))
  then Raise (ValueError "Phone must be a non-empty string.")
  else
    let value := Str.strip phone in
    if negb (Str.isdigit value)
    then Raise (ValueError "Phone number must contain only digits.")
    else if negb (Str.len value =? 10)
    then Raise (ValueError "Phone number must be 10 digits long.")
    else Ok value.

(* ================================================================== *)
(** ** [datetime]: naive date-times of the proleptic Gregorian calendar *)

Record datetime : Type := mkdatetime {
  year : Z; month : Z; day : Z;
  hour : Z; minute : Z; second : Z; microsecond : Z
}.

Module DT.

Definition MINYEAR : Z := 1.
Definition MAXYEAR : Z := 9999.
Definition MAXORDINAL : Z := 3652059.

Definition is_leap (y : Z) : bool :=
  (y mod 4 =? 0) && (negb (y mod 100 =? 0) || (y mod 400 =? 0)).

Definition days_before_year (y0 : Z) : Z :=
  let y := y0 - 1 in
  y * 365 + y / 4 - y / 100 + y / 400.

Definition DAYS_IN_MONTH (m : Z) : Z :=
  if (m =? 2) then 28
  else if (m =? 4) || (m =? 6) || (m =? 9) || (m =? 11) then 30
  else 31.

Definition DAYS_BEFORE_MONTH (m : Z) : Z :=
  nth (Z.to_nat m) [0; 0; 31; 59; 90; 120; 151; 181; 212; 243; 273; 304; 334] 0.

Definition days_in_month (y m : Z) : Z :=
  if (m =? 2) && is_leap y then 29 else DAYS_IN_MONTH m.

Definition days_before_month (y m : Z) : Z :=
  DAYS_BEFORE_MONTH m + (if (2 <? m) && is_leap y then 1 else 0).

Definition ymd2ord (y m d : Z) : Z :=
  days_before_year y + days_before_month y m + d.

Definition DI400Y : Z := 146097.
Definition DI100Y : Z := 36524.
Definition DI4Y : Z := 1461.

(** [_ord2ymd]: the inverse of [ymd2ord]. *)
Definition ord2ymd (n0 : Z) : Z * Z * Z :=
  let n := n0 - 1 in
  let n400 := n / DI400Y in
  let n := n mod DI400Y in
  let y := n400 * 400 + 1 in
  let n100 := n / DI100Y in
  let n := n mod DI100Y in
  let n4 := n / DI4Y in
  let n := n mod DI4Y in
  let n1 := n / 365 in
  let n := n mod 365 in
  let y := y + n100 * 100 + n4 * 4 + n1 in
  if (n1 =? 4) || (n100 =? 4) then (y - 1, 12, 31)
  else
    let leapyear := (n1 =? 3) && (negb (n4 =? 24) || (n100 =? 3)) in
    let m := Z.shiftr (n + 50) 5 in
    let preceding := DAYS_BEFORE_MONTH m + (if (2 <? m) && leapyear then 1 else 0) in
    if n <? preceding then
      let m' := m - 1 in
      let preceding' :=
        preceding - (DAYS_IN_MONTH m' + (if (m' =? 2) && leapyear then 1 else 0)) in
      (y, m', n - preceding' + 1)
    else (y, m, n - preceding + 1).

Definition show (n : Z) : string :=
  DecimalString.NilZero.string_of_int (Z.to_int n).

(** The checks of the date part made by the [datetime] constructor. *)
Definition check_date_fields (y m d : Z) : result unit :=
  if negb ((MINYEAR <=? y) && (y <=? MAXYEAR))
  then Raise (ValueError ("year " ++ show y ++ " is out of range"))
  else if negb ((1 <=? m) && (m <=? 12))
  then Raise (ValueError "month must be in 1..12")
  else if negb ((1 <=? d) && (d <=? days_in_month y m))
  then Raise (ValueError "day is out of range for month")
  else Ok tt.

Definition check_time_fields (h mi s us : Z) : bool :=
  (0 <=? h) && (h <=? 23) && (0 <=? mi) && (mi <=? 59)
  && (0 <=? s) && (s <=? 59) && (0 <=? us) && (us <=? 999999).

(** A value that the [datetime] constructor accepts. *)
Definition valid (t : datetime) : bool :=
  is_ok (check_date_fields (year t) (month t) (day t))
  && check_time_fields (hour t) (minute t) (second t) (microsecond t).

(** [t.replace(year=y)]. *)
Definition replace_year (t : datetime) (y : Z) : result datetime :=
  _ <- check_date_fields y (month t) (day t) ;;
  Ok (mkdatetime y (month t) (day t) (hour t) (minute t) (second t) (microsecond t)).

Definition toordinal (t : datetime) : Z := ymd2ord (year t) (month t) (day t).

(** [t.weekday()]: Monday is 0, Sunday is 6. *)
Definition weekday (t : datetime) : Z := (toordinal t + 6) mod 7.

Definition fields (t : datetime) : list Z :=
  [year t; month t; day t; hour t; minute t; second t; microsecond t].

Fixpoint cmp (a b : list Z) : comparison :=
  match a, b with
  | [], [] => Eq
  | [], _ :: _ => Lt
  | _ :: _, [] => Gt
  | x :: a', y :: b' =>
      match x ?= y with
      | Eq => cmp a' b'
      | c => c
      end
  end.

(** [a < b] and [a > b] on date-times. *)
Definition lt (a b : datetime) : bool :=
  match cmp (fields a) (fields b) with Lt => true | _ => false end.

Definition gt (a b : datetime) : bool := lt b a.

Definition seconds_of_day (t : datetime) : Z :=
  second t + minute t * 60 + hour t * 3600.

(** Microseconds from the start of day 0 to [t]. *)
Definition total_us (t : datetime) : Z :=
  (toordinal t * 86400 + seconds_of_day t) * 1000000 + microsecond t.

(** [(a - b).days]: a [timedelta] is normalised so that its seconds and
    microseconds are not negative, hence the floor. *)
Definition sub_days (a b : datetime) : Z :=
  (total_us a - total_us b) / 86400000000.

(** [t + timedelta(days=n)]. *)
Definition add_days (t : datetime) (n : Z) : result datetime :=
  let o := toordinal t + n in
  if (0 <? o) && (o <=? MAXORDINAL) then
    let '(y, m, d) := ord2ymd o in
    Ok (mkdatetime y m d (hour t) (minute t) (second t) (microsecond t))
  else Raise (OverflowError "date value out of range").

Definition pad2 (n : Z) : string :=
  if n <? 10 then "0" ++ show n else show n.

(** [strftime(t, '%Y.%m.%d')]; the year is written as the C library
    writes it, without leading zeros. *)
Definition strftime_Ymd (t : datetime) : string :=
  show (year t) ++ "." ++ pad2 (month t) ++ "." ++ pad2 (day t).

(** [t.strftime('%d.%m')]. *)
Definition strftime_dm (t : datetime) : string :=
  pad2 (day t) ++ "." ++ pad2 (month t).

End DT.

(* ================================================================== *)
(** ** [datetime.strptime(value, "%d.%m.%Y")] *)

Module Strptime.

(** An alternative of a directive's regular expression: one character
    class per position. *)
Definition alt : Type := list (ascii -> bool).

Definition range (lo hi : string) (c : ascii) : bool :=
  match lo, hi with
  | String l _, String h _ => (Str.code l <=? Str.code c) && (Str.code c <=? Str.code h)
  | _, _ => false
  end.

Definition lit (x : string) (c : ascii) : bool := range x x c.

(** [\d]: below 256 the decimal digits are the ASCII ones. *)
Definition digit : ascii -> bool := Str.ascii_digit.

(** [3[0-1]|[1-2]\d|0[1-9]|[1-9]| [1-9]] *)
Definition re_d : list alt :=
  [ [lit "3"; range "0" "1"]; [range "1" "2"; digit]; [lit "0"; range "1" "9"];
    [range "1" "9"]; [lit " "; range "1" "9"] ].

(** [1[0-2]|0[1-9]|[1-9]] *)
Definition re_m : list alt :=
  [ [lit "1"; range "0" "2"]; [lit "0"; range "1" "9"]; [range "1" "9"] ].

(** [\d\d\d\d] *)
Definition re_Y : list alt := [ [digit; digit; digit; digit] ].

Definition re_dot : list alt := [ [lit "."] ].

(** The regular expression of the format [%d.%m.%Y], group by group. *)
Definition format_regex : list (list alt) := [re_d; re_dot; re_m; re_dot; re_Y].

(** Match one alternative at the start of [s]: the text matched and the rest. *)
Fixpoint match_alt (a : alt) (s : string) : option (string * string) :=
  match a with
  | [] => Some (EmptyString, s)
  | p :: a' =>
      match s with
      | EmptyString => None
      | String c s' =>
          if p c then
            match match_alt a' s' with
            | Some (t, r) => Some (String c t, r)
            | None => None
            end
          else None
      end
  end.

(** Try the alternatives of one group in order at the start of [s];
    [k] matches what follows the group, and when it fails on the rest the
    next alternative is tried. *)
Fixpoint match_alts (alts : list alt) (s : string)
  (k : string -> option (list string * string)) : option (list string * string) :=
  match alts with
  | [] => None
  | a :: alts' =>
      match match_alt a s with
      | Some (t, r) =>
          match k r with
          | Some (ts, r') => Some (t :: ts, r')
          | None => match_alts alts' s k
          end
      | None => match_alts alts' s k
      end
  end.

(** Match the groups in sequence at the start of [s]: the texts of the
    groups and what follows the match. *)
Fixpoint match_groups (gs : list (list alt)) (s : string) : option (list string * string) :=
  match gs with
  | [] => Some ([], s)
  | g :: gs' => match_alts g s (match_groups gs')
  end.

Fixpoint int_digits (acc : Z) (s : string) : Z :=
  match s with
  | EmptyString => acc
  | String c s' => int_digits (acc * 10 + (Str.code c - 48)) s'
  end.

(** [int(s)] for a text of digits, white space around it allowed. *)
Definition int (s : string) : Z := int_digits 0 (Str.strip s).

(** [repr(s)]; the escaping of quotes and control characters is left
    out, the text only ever appears inside an error message. *)
Definition repr (s : string) : string := "'" ++ s ++ "'".

(** The groups [d], [m] and [Y] of a match at the start of [s], and
    what follows the match. *)
Definition match_format (s : string) : option (string * string * string * string) :=
  match match_groups format_regex s with
  | Some ([d; _; m; _; Y], rest) => Some (d, m, Y, rest)
  | _ => None
  end.

Definition strptime (data_string : string) : result datetime :=
  match match_format data_string with
  | None =>
      Raise (ValueError ("time data " ++ repr data_string
                         ++ " does not match format '%d.%m.%Y'"))
  | Some (d, m, Y, rest) =>
      if Str.truthy rest
      then Raise (ValueError ("unconverted data remains: " ++ rest))
      else
        let y := int Y in
        let mo := int m in
        let da := int d in
        _ <- DT.check_date_fields y mo da ;;
        Ok (mkdatetime y mo da 0 0 0 0)
  end.

End Strptime.

(** [Birthday.__init__], with the value of [datetime.now()]: the stored value. *)
Definition Birthday (now : datetime) (value : string) : result datetime :=
  let body :=
    v <- Strptime.strptime value ;;
    if (year v <? 1900) || DT.gt v now
    then Raise (ValueError "Year must be between 1900 and the current year.")
    else Ok v in
  match body with
  | Raise (ValueError e) =>
      if Str.contains "does not match format" e
      then Raise (ValueError "Invalid date format. Use DD.MM.YYYY")
      else Raise (ValueError e)
  | other => other
  end.

(* ================================================================== *)
(** ** Records *)

Record record : Type := mkrecord {
  name : string;
  phones : list string;
  birthday : option datetime
}.

Module Rec.

(** [Record.__init__]. *)
Definition init (name : string) : result record :=
  n <- Name name ;;
  Ok (mkrecord n [] None).

Definition set_phones (self : record) (ps : list string) : record :=
  mkrecord (name self) ps (birthday self).

Definition add_phone (self : record) (phone : string) : record * result unit :=
  match Phone phone with
  | Ok v => (set_phones self (phones self ++ [v]), Ok tt)
  | Raise e => (self, Raise e)
  end.

Definition remove_phone (self : record) (phone : string) : record * result unit :=
  match Phone phone with
  | Ok phone_to_remove =>
      (set_phones self
         (filter (fun p => negb (String.eqb p phone_to_remove)) (phones self)),
       Ok tt)
  | Raise e => (self, Raise e)
  end.

Definition find_phone (self : record) (phone : string) : result (option string) :=
  if negb (Str.truthy (Str.strip phone))
  then Raise (ValueError "Phone must be a non-empty string.")
  else
    let phone := Str.strip phone in
    if existsb (fun p => String.eqb p phone) (phones self)
    then Ok (Some phone)
    else Ok None.

(** The loop of [edit_phone] over the phones: the phones after the loop
    and how it ended. *)
Fixpoint edit_loop (ps : list string) (old_phone new_phone : string)
  : list string * result unit :=
  match ps with
  | [] => ([], Raise (ValueError "Phone number not found."))
  | p :: ps' =>
      if String.eqb p old_phone then
        match Phone new_phone with
        | Ok v => (v :: ps', Ok tt)
        | Raise e => (p :: ps', Raise e)
        end
      else
        let '(ps'', r) := edit_loop ps' old_phone new_phone in
        (p :: ps'', r)
  end.

Definition edit_phone (self : record) (old_phone new_phone : string)
  : record * result unit :=
  let '(ps, r) := edit_loop (phones self) old_phone new_phone in
  (set_phones self ps, r).

Definition add_birthday (now : datetime) (self : record) (b : string)
  : record * result unit :=
  match Birthday now b with
  | Ok v => (mkrecord (name self) (phones self) (Some v), Ok tt)
  | Raise e => (self, Raise e)
  end.

(** [Record.__str__]. *)
Definition str (self : record) : string :=
  "Contact name: " ++ name self ++ ", phones: " ++ Str.join "; " (phones self).

End Rec.


(* ================================================================== *)
(** ** The address book: a [dict] from names to records, in insertion order *)

Definition book : Type := list (string * record).

Module Dict.

Fixpoint get (d : book) (k : string) : option record :=
  match d with
  | [] => None
  | (k', v) :: d' => if String.eqb k' k then Some v else get d' k
  end.

Definition mem (d : book) (k : string) : bool :=
  match get d k with Some _ => true | None => false end.

(** [d[k] = v]: a key already present keeps its place. *)
Fixpoint set (d : book) (k : string) (v : record) : book :=
  match d with
  | [] => [(k, v)]
  | (k', v') :: d' => if String.eqb k' k then (k', v) :: d' else (k', v') :: set d' k v
  end.

(** [del d[k]]. *)
Fixpoint del (d : book) (k : string) : book :=
  match d with
  | [] => []
  | (k', v') :: d' => if String.eqb k' k then d' else (k', v') :: del d' k
  end.

Definition values (d : book) : list record := map snd d.

Definition keys (d : book) : list string := map fst d.

End Dict.

Module AddressBook.

(** [AddressBook()]. *)
Definition empty : book := [].

Definition add_record (self : book) (r : record) : book :=
  Dict.set self (name r) r.

Definition find (self : book) (name : string) : result (option record) :=
  if negb (Str.truthy (Str.strip name))
  then Raise (ValueError "Name must be a non-empty string.")
  else if negb (Dict.mem self (Str.strip name))
  then Ok None
  else Ok (Dict.get self (Str.strip name)).

Definition delete (self : book) (name : string) : book * result unit :=
  if negb (Str.truthy (Str.strip name))
  then (self, Raise (ValueError "Name must be a non-empty string."))
  else
    let name := Str.strip name in
    if Dict.mem self name
    then (Dict.del self name, Ok tt)
    else (self, Raise (KeyError ("Contact '" ++ name ++ "' not found."))).

Definition period_days : Z := 7.

(** The date of the next birthday: [birthday_this_year] as it is when
    the days are counted. *)
Definition next_birthday (today birthday : datetime) : result datetime :=
  birthday_this_year <- DT.replace_year birthday (year today) ;;
  if DT.lt birthday_this_year today
  then DT.replace_year birthday_this_year (year today + 1)
  else Ok birthday_this_year.

(** The move of a week-end date to the Monday after it. *)
Definition shift_weekend (birthday_this_year : datetime) : result datetime :=
  if DT.weekday birthday_this_year =? 5 then DT.add_days birthday_this_year 2
  else if DT.weekday birthday_this_year =? 6 then DT.add_days birthday_this_year 1
  else Ok birthday_this_year.

(** One turn of the loop of [get_upcoming_birthday]: [None] when the
    user is passed over, else the local [congratulation_date] and the
    user that is appended. *)
Definition loop_body (today : datetime) (user : record)
  : result (option (string * record)) :=
  match birthday user with
  | None => Ok None
  | Some birthday =>
      birthday_this_year <- next_birthday today birthday ;;
      let days_until_birthday := DT.sub_days birthday_this_year today in
      if days_until_birthday <=? period_days then
        shifted <- shift_weekend birthday_this_year ;;
        let congratulation_date := DT.strftime_Ymd shifted in
        Ok (Some (congratulation_date, user))
      else Ok None
  end.

Fixpoint loop (today : datetime) (users : list record) (upcoming_birthdays : list record)
  : result (list record) :=
  match users with
  | [] => Ok upcoming_birthdays
  | user :: users' =>
      e <- loop_body today user ;;
      match e with
      | Some (_, u) => loop today users' (upcoming_birthdays ++ [u])
      | None => loop today users' upcoming_birthdays
      end
  end.

(** [get_upcoming_birthday], with the value of [datetime.today()]. *)
Definition get_upcoming_birthday (today : datetime) (self : book) : result (list record) :=
  loop today (Dict.values self) [].

End AddressBook.

(* ================================================================== *)
(** ** Persistence *)



Section Persistence.

(** [pickle.load] on the content of a file. *)
Variable unpickle : string -> result book.



End Persistence.

(* ================================================================== *)
(** ** Commands *)

Definition nl : string := String (ascii_of_nat 10) EmptyString.

Definition usage : string :=
  "Invalid input. Format: " ++ nl ++
  "            add <name> <phone_number>" ++ nl ++
  "            change <name> <old_phone> <new_phone>" ++ nl ++
  "            phone <name>" ++ nl ++
  "            add-birthday <name> <DD.MM.YYYY>" ++ nl ++
  "            show-birthday <name>" ++ nl ++
  "            birthdays" ++ nl ++
  "            all".

(** The decorator [input_error]: what the wrapped call returns. *)
Definition input_error {A : Type} (r : result A) : A + string :=
  match r with
  | Ok a => inl a
  | Raise (ValueError _) => inr usage
  | Raise (KeyError _) => inr "Contact not found."
  | Raise (OverflowError e) => inr ("An unexpected error occurred: " ++ e)
  | Raise (UnpicklingError e) => inr ("An unexpected error occurred: " ++ e)
  end.

(** The line printed for one record by [upcoming_birthdays]; the
    records it is used on come from the query and have a birthday. *)
Definition birthday_line (r : record) : string :=
  match birthday r with
  | Some b => name r ++ ": " ++ DT.strftime_dm b
  | None => name r ++ ": "
  end.

(** The command [birthdays]: the lines printed, and the text returned
    when the decorator caught an exception.  The symbols around the
    heading are kept as their UTF-8 bytes. *)
Definition upcoming_birthdays (today : datetime) (b : book) : list string * option string :=
  match input_error (AddressBook.get_upcoming_birthday today b) with
  | inl upcoming =>
      (app (match upcoming with [] => ["No upcoming birthdays."] | _ => [] end)
           ("🎉 Upcoming birthdays: 🎉" :: map birthday_line upcoming),
       None)
  | inr msg => ([], Some msg)
  end.

(* ================================================================== *)
(** ** Notions of the specification, and sample data *)

(** A phone number of the specification: exactly 10 ASCII digits. *)
Definition ten_ascii_digits (s : string) : bool :=
  Str.all Str.ascii_digit s && (Str.len s =? 10).

(** Ten times the character U+00B2, superscript two. *)
Definition superscript_twos : string :=
  let c := ascii_of_nat 178 in
  String c (String c (String c (String c (String c
  (String c (String c (String c (String c (String c EmptyString))))))))).

(** Every phone of the record is a value that [Phone] stores: the state
    of a record that was filled through its methods. *)
Definition phones_stored (r : record) : Prop :=
  Forall (fun p => Phone p = Ok p) (phones r).

(** A record with the same number added twice. *)
Definition twice_added : record :=
  match Rec.init "Ann" with
  | Ok r => fst (Rec.add_phone (fst (Rec.add_phone r "1111111111")) "1111111111")
  | Raise _ => mkrecord "Ann" [] None
  end.

(** Whether [s] is made of one character of each class of [layout], in order. *)
Fixpoint fits (layout : list (ascii -> bool)) (s : string) : bool :=
  match layout, s with
  | [], EmptyString => true
  | p :: layout', String c s' => p c && fits layout' s'
  | _, _ => false
  end.

Definition dg : ascii -> bool := Str.ascii_digit.
Definition dot : ascii -> bool := Strptime.lit ".".
Definition blank : ascii -> bool := Strptime.lit " ".

(** Every character of the class [p] is of the class [q]. *)
Definition within (p q : ascii -> bool) : Prop := forall c, p c = true -> q c = true.

(** The pattern DD.MM.YYYY of the specification: a two-digit day, a
    two-digit month and a four-digit year, separated by dots. *)
Definition DDMMYYYY (s : string) : bool :=
  fits [dg; dg; dot; dg; dg; dot; dg; dg; dg; dg] s.

(** The layouts that [strptime] takes for [%d.%m.%Y]: the day and the
    month may have one digit, and a one-digit day may have a space before it. *)
Definition layouts : list (list (ascii -> bool)) :=
  [ [dg; dg; dot; dg; dg; dot; dg; dg; dg; dg];
    [dg; dot; dg; dg; dot; dg; dg; dg; dg];
    [blank; dg; dot; dg; dg; dot; dg; dg; dg; dg];
    [dg; dg; dot; dg; dot; dg; dg; dg; dg];
    [dg; dot; dg; dot; dg; dg; dg; dg];
    [blank; dg; dot; dg; dot; dg; dg; dg; dg] ].

Definition day_month_year_layout (s : string) : bool :=
  existsb (fun layout => fits layout s) layouts.

(** The value of a digit. *)
Definition digit_value (c : ascii) : Z := Str.code c - 48.

(** The year, month and day that a text of the pattern DD.MM.YYYY denotes. *)
Definition denoted (s : string) : Z * Z * Z :=
  (Strptime.int (String.substring 6 4 s),
   Strptime.int (String.substring 3 2 s),
   Strptime.int (String.substring 0 2 s)).

(** The day [y]-[m]-[d] is not after the day of [now]. *)
Definition not_after (y m d : Z) (now : datetime) : bool :=
  match DT.cmp [y; m; d] [year now; month now; day now] with
  | Gt => false
  | _ => true
  end.

(** The time of day of [t] is midnight. *)
Definition midnight (t : datetime) : Prop :=
  hour t = 0 /\ minute t = 0 /\ second t = 0 /\ microsecond t = 0.

(** Sample data: Monday 10 June 2024, ten in the morning, and records
    with a birthday on a given day and month of 1990. *)
Definition monday_morning : datetime := mkdatetime 2024 6 10 10 0 0 0.

Definition born (who : string) (d m : Z) : record :=
  mkrecord who [] (Some (mkdatetime 1990 m d 0 0 0 0)).

(** A record whose birthday is 29 February 2000. *)
Definition leapling : record :=
  mkrecord "Lea" [] (Some (mkdatetime 2000 2 29 0 0 0 0)).

(** A record made by the methods: [Record(who)] and then [add_birthday]. *)
Definition made (now : datetime) (who b : string) : result record :=
  r <- Rec.init who ;;
  let '(r', outcome) := Rec.add_birthday now r b in
  _ <- outcome ;;
  Ok r'.

(* ================================================================== *)
(** ** The rest of the program: display of dates, commands, saving *)

(** [t.strftime('%d.%m.%Y')]. *)
Definition strftime_dmY (t : datetime) : string :=
  DT.pad2 (day t) ++ "." ++ DT.pad2 (month t) ++ "." ++ DT.show (year t).

(** [s.split()]: the words of [s], white space being what separates them. *)
Fixpoint split (s : string) : list string :=
  match s with
  | EmptyString => []
  | String c s' =>
      if Str.isspace_char c then split s'
      else
        match s' with
        | EmptyString => [String c EmptyString]
        | String c' _ =>
            if Str.isspace_char c' then String c EmptyString :: split s'
            else
              match split s' with
              | w :: ws => String c w :: ws
              | [] => [String c EmptyString]
              end
        end
  end.

(** The [ValueError] of an unpacking that finds too few values. *)
Definition not_enough (expected : string) (got : nat) : exn :=
  ValueError ("not enough values to unpack (expected " ++ expected ++ ", got "
              ++ DT.show (Z.of_nat got) ++ ")").

Definition too_many (expected : string) : exn :=
  ValueError ("too many values to unpack (expected " ++ expected ++ ")").


(** What a decorated command returns: the text of the body, or the text
    that [input_error] makes of its exception. *)
Definition decorated (r : result string) : string :=
  match input_error r with
  | inl text => text
  | inr text => text
  end.

(** The body of [add_contact]: the book after the call and how the call
    ended.  The record that [find] returned or that was just added is the
    object stored under the trimmed name; [add_phone] changes it in place. *)
Definition add_contact_body (args : list string) (b : book) : book * result string :=
  match args with
  | name :: phone :: _ =>
      match AddressBook.find b name with
      | Raise e => (b, Raise e)
      | Ok found =>
          let made :=
            match found with
            | Some record => Ok (b, record, "Contact updated.")
            | None =>
                record <- Rec.init name ;;
                Ok (AddressBook.add_record b record, record, "Contact added.")
            end in
          match made with
          | Raise e => (b, Raise e)
          | Ok (b1, record, message) =>
              if Str.truthy phone then
                match Rec.add_phone record phone with
                | (record', Ok _) => (Dict.set b1 (Str.strip name) record', Ok message)
                | (_, Raise e) => (b1, Raise e)
                end
              else (b1, Ok message)
          end
      end
  | _ => (b, Raise (not_enough "at least 2" (List.length args)))
  end.

Definition add_contact (args : list string) (b : book) : book * string :=
  let '(b', r) := add_contact_body args b in (b', decorated r).

Definition change_contact_body (args : list string) (b : book) : book * result string :=
  match args with
  | [name; old_phone; new_phone] =>
      match AddressBook.find b name with
      | Raise e => (b, Raise e)
      | Ok None => (b, Ok "Contact not found.")
      | Ok (Some record) =>
          match Rec.find_phone record old_phone with
          | Raise e => (b, Raise e)
          | Ok None => (b, Ok "Phone number not found.")
          | Ok (Some _) =>
              match Rec.edit_phone record old_phone new_phone with
              | (record', Ok _) => (Dict.set b (Str.strip name) record', Ok "Contact updated.")
              | (_, Raise e) => (b, Raise e)
              end
          end
      end
  | _ :: _ :: _ :: _ :: _ => (b, Raise (too_many "3"))
  | _ => (b, Raise (not_enough "3" (List.length args)))
  end.

Definition change_contact (args : list string) (b : book) : book * string :=
  let '(b', r) := change_contact_body args b in (b', decorated r).

(** [show_phone]: the record found, or a text.  With no argument
    [args[0]] raises [IndexError], of which the decorator makes the text
    given here. *)
Definition show_phone (args : list string) (b : book) : record + string :=
  match args with
  | [] => inr "Invalid input. Format: phone <name>."
  | name :: _ =>
      match input_error (AddressBook.find b name) with
      | inl (Some record) => inl record
      | inl None => inr "Contact not found."
      | inr text => inr text
      end
  end.

(** [show_all]: the lines printed.  The symbols around the heading are
    kept as their UTF-8 bytes; the heading ends with a line feed of its own. *)
Definition show_all (b : book) : list string :=
  match b with
  | [] => ["No contacts available."]
  | _ => ("📗 All contacts: 📗" ++ nl) :: map Rec.str (Dict.values b)
  end.

(** The body of the command [add_birthday], with the value of
    [datetime.now()]. *)
Definition add_birthday_body (now : datetime) (args : list string) (b : book)
  : book * result string :=
  match args with
  | [name; birthday] =>
      match AddressBook.find b name with
      | Raise e => (b, Raise e)
      | Ok None => (b, Ok "Contact not found.")
      | Ok (Some record) =>
          match Rec.add_birthday now record birthday with
          | (record', Ok _) => (Dict.set b (Str.strip name) record', Ok "Birthday added.")
          | (_, Raise e) => (b, Raise e)
          end
      end
  | _ :: _ :: _ :: _ => (b, Raise (too_many "2"))
  | _ => (b, Raise (not_enough "2" (List.length args)))
  end.

Definition add_birthday (now : datetime) (args : list string) (b : book) : book * string :=
  let '(b', r) := add_birthday_body now args b in (b', decorated r).

(** The text of [contact_birthday] for a record with the birthday [v]. *)
Definition birthday_text (r : record) (v : datetime) : string :=
  name r ++ "'s birthday is on " ++ strftime_dmY v ++ ".".

(** [contact_birthday]; with no argument [args[0]] raises [IndexError]. *)
Definition contact_birthday (args : list string) (b : book) : string :=
  match args with
  | [] => "Invalid input. Format: phone <name>."
  | name :: _ =>
      decorated
        (found <- AddressBook.find b name ;;
         match found with
         | None => Ok "Contact not found."
         | Some record =>
             match birthday record with
             | None => Ok "Birthday not set."
             | Some v => Ok (birthday_text record v)
             end
         end)
  end.

Section Saving.

(** [pickle.dump] of a book: the bytes written. *)
Variable pickle : book -> string.




End Saving.

(** The state of a book that was filled through the commands: no name
    twice, each record under its own name, names and phones as the fields
    store them. *)
Definition record_ok (key : string) (r : record) : Prop :=
  key = name r /\ Name key = Ok key /\ phones_stored r.

Definition book_ok (b : book) : Prop :=
  NoDup (Dict.keys b) /\ Forall (fun kr => record_ok (fst kr) (snd kr)) b.

(** A birthday as [Birthday] stores it: a date of the calendar, at
    midnight, from 1900 on. *)
Definition birthday_ok (v : datetime) : Prop :=
  DT.valid v = true /\ midnight v /\ 1900 <= year v.

(** The character of a digit value. *)
Definition digit_char (k : Z) : ascii := ascii_of_N (Z.to_N (48 + k)).

(** Whether one turn of the loop of the query appends the user. *)
Definition appended (today : datetime) (user : record) : bool :=
  match AddressBook.loop_body today user with
  | Ok (Some _) => true
  | _ => false
  end.

(** Every character of [s] is below U+0100.  These are the texts that
    [string] holds; among them the decimal digits, which [\d] of a regular
    expression and [int] take, are the ASCII digits and no others. *)
Definition below_256 (s : string) : bool :=
  Str.all (fun c => Str.code c <? 256) s.




(* ================================================================== *)
(** * Properties *)

(** ** Strings *)

Lemma truthy_false (s : string) : Str.truthy s = false -> s = EmptyString.
Proof. destruct s; simpl; congruence. Qed.

Lemma truthy_true (s : string) : Str.truthy s = true <-> s <> EmptyString.
Proof. destruct s; simpl; split; congruence. Qed.

Lemma all_In (p : ascii -> bool) (s : string) (c : ascii) :
  Str.all p s = true -> In c (list_ascii_of_string s) -> p c = true.
Proof.
  induction s as [|a s IH]; simpl; [tauto|].
  intros H [->|Hin]; apply andb_prop in H as [Ha Hs]; auto.
Qed.

Lemma all_false_In (p : ascii -> bool) (s : string) (c : ascii) :
  In c (list_ascii_of_string s) -> p c = false -> Str.all p s = false.
Proof.
  intros Hin Hc. destruct (Str.all p s) eqn:E; [|reflexivity].
  rewrite (all_In p s c E Hin) in Hc. discriminate.
Qed.

Lemma all_weaken (p q : ascii -> bool) (s : string) :
  (forall c, p c = true -> q c = true) -> Str.all p s = true -> Str.all q s = true.
Proof.
  intros Hpq. induction s as [|a s IH]; simpl; [reflexivity|].
  intros H. apply andb_prop in H as [Ha Hs]. rewrite (Hpq _ Ha), (IH Hs). reflexivity.
Qed.

Lemma ascii_digit_isdigit (c : ascii) : Str.ascii_digit c = true -> Str.isdigit_char c = true.
Proof. unfold Str.isdigit_char. intros ->. reflexivity. Qed.

(** Below 256 the digits of [str.isdigit] that are not ASCII digits are
    the three superscripts. *)
Lemma isdigit_char_cases (c : ascii) :
  Str.isdigit_char c = true <->
  Str.ascii_digit c = true \/ Str.code c = 178 \/ Str.code c = 179 \/ Str.code c = 185.
Proof.
  unfold Str.isdigit_char. rewrite !orb_true_iff, !Z.eqb_eq. tauto.
Qed.

Lemma isdigit_all (s : string) :
  s <> EmptyString -> Str.isdigit s = Str.all Str.isdigit_char s.
Proof. destruct s; [congruence|reflexivity]. Qed.

(** A character that [str.isdigit] counts as a digit is not white space. *)
Lemma isdigit_not_space (c : ascii) :
  Str.isdigit_char c = true -> Str.isspace_char c = false.
Proof.
  unfold Str.isdigit_char, Str.ascii_digit, Str.isspace_char.
  generalize (Str.code c). intros n. lia.
Qed.

Lemma lstrip_no_space (s : string) :
  Str.all (fun c => negb (Str.isspace_char c)) s = true -> Str.lstrip s = s.
Proof.
  destruct s as [|c s]; simpl; [reflexivity|].
  intros H. apply andb_prop in H as [Hc _].
  apply negb_true_iff in Hc. rewrite Hc. reflexivity.
Qed.

Lemma rstrip_no_space (s : string) :
  Str.all (fun c => negb (Str.isspace_char c)) s = true -> Str.rstrip s = s.
Proof.
  induction s as [|c s IH]; simpl; [reflexivity|].
  intros H. apply andb_prop in H as [Hc Hs]. rewrite (IH Hs).
  apply negb_true_iff in Hc. rewrite Hc. destruct s; reflexivity.
Qed.

(** Trimming leaves a text without white space as it is. *)
Lemma strip_no_space (s : string) :
  Str.all (fun c => negb (Str.isspace_char c)) s = true -> Str.strip s = s.
Proof.
  intros H. unfold Str.strip. rewrite (lstrip_no_space s H). apply rstrip_no_space, H.
Qed.

Lemma strip_isdigit (s : string) :
  Str.all Str.isdigit_char s = true -> Str.strip s = s.
Proof.
  intros H. apply strip_no_space. revert H. apply all_weaken.
  intros c Hc. rewrite (isdigit_not_space c Hc). reflexivity.
Qed.

Lemma strip_digits (s : string) :
  Str.all Str.ascii_digit s = true -> Str.strip s = s.
Proof.
  intros H. apply strip_isdigit. revert H. apply all_weaken, ascii_digit_isdigit.
Qed.

(** ** Phones *)

(** [Phone] either stores the trimmed text or raises a [ValueError]. *)
Lemma Phone_cases (raw : string) :
  Phone raw = Ok (Str.strip raw) \/ exists msg, Phone raw = Raise (ValueError msg).
Proof.
  unfold Phone.
  destruct (negb (Str.truthy (Str.strip raw))); [right; eauto|].
  destruct (negb (Str.isdigit (Str.strip raw))); [right; eauto|].
  destruct (negb (Str.len (Str.strip raw) =? 10)); [right; eauto|].
  left; reflexivity.
Qed.

Lemma Phone_Ok_inv (raw v : string) :
  Phone raw = Ok v ->
  v = Str.strip raw /\ Str.truthy v = true
  /\ Str.all Str.isdigit_char v = true /\ Str.len v = 10.
Proof.
  unfold Phone.
  destruct (Str.truthy (Str.strip raw)) eqn:Ht; simpl; [|discriminate].
  destruct (Str.isdigit (Str.strip raw)) eqn:Hd; simpl; [|discriminate].
  destruct (Str.len (Str.strip raw) =? 10) eqn:Hl; simpl; [|discriminate].
  intros [= <-]. apply Z.eqb_eq in Hl.
  rewrite isdigit_all in Hd by (apply truthy_true; exact Ht). auto.
Qed.

Lemma Phone_accepts (raw : string) :
  Str.all Str.isdigit_char (Str.strip raw) = true ->
  Str.len (Str.strip raw) = 10 ->
  Phone raw = Ok (Str.strip raw).
Proof.
  intros Hd Hl. unfold Phone.
  assert (Hne : Str.strip raw <> EmptyString).
  { intros E. rewrite E in Hl. discriminate. }
  apply truthy_true in Hne as Ht. rewrite Ht. simpl.
  rewrite (isdigit_all _ Hne), Hd. simpl.
  apply Z.eqb_eq in Hl. rewrite Hl. reflexivity.
Qed.

Lemma Phone_rejects (raw : string) :
  Str.all Str.isdigit_char (Str.strip raw) = false \/ Str.len (Str.strip raw) <> 10 ->
  exists msg, Phone raw = Raise (ValueError msg).
Proof.
  intros H. destruct (Phone_cases raw) as [E|E]; [|exact E].
  apply Phone_Ok_inv in E as (_ & _ & Hd & Hl).
  destruct H as [H|H]; [congruence|contradiction].
Qed.

(** A stored phone is accepted again, as it is. *)
Lemma Phone_stored (raw v : string) : Phone raw = Ok v -> Phone v = Ok v.
Proof.
  intros H. destruct (Phone_Ok_inv _ _ H) as (_ & _ & Hd & Hl).
  pose proof (strip_isdigit v Hd) as Hs.
  rewrite <- Hs at 2. apply Phone_accepts; rewrite Hs; assumption.
Qed.

(** C3, as amended: a text that, once trimmed, is exactly 10 ASCII digits
    is accepted by phone validation and stored as that digit string; a text
    that, once trimmed, has a character that [str.isdigit] does not count as
    a digit, or whose length is not 10, is refused with a [ValueError]. *)
Theorem C3_phone_validation (raw : string) :
  (ten_ascii_digits (Str.strip raw) = true -> Phone raw = Ok (Str.strip raw))
  /\ ((exists c, In c (list_ascii_of_string (Str.strip raw))
                 /\ Str.isdigit_char c = false)
      \/ Str.len (Str.strip raw) <> 10 ->
      exists msg, Phone raw = Raise (ValueError msg)).
Proof.
  split.
  - unfold ten_ascii_digits. intros H. apply andb_prop in H as [Hd Hl].
    apply Phone_accepts.
    + eapply all_weaken; [exact ascii_digit_isdigit | exact Hd].
    + apply Z.eqb_eq; exact Hl.
  - intros [(c & Hin & Hc)|Hl]; apply Phone_rejects.
    + left. eapply all_false_In; eassumption.
    + right; exact Hl.
Qed.

Lemma C3_phone_validation_witness :
  Phone " 0501234567" = Ok "0501234567"
  /\ (exists msg, Phone "05012x4567" = Raise (ValueError msg))
  /\ (exists msg, Phone "050123" = Raise (ValueError msg)).
Proof.
  split; [|split].
  - apply (proj1 (C3_phone_validation " 0501234567")). reflexivity.
  - apply (proj2 (C3_phone_validation "05012x4567")). left.
    exists "x"%char. split; [simpl; tauto | reflexivity].
  - apply (proj2 (C3_phone_validation "050123")). right. vm_compute. discriminate.
Defined.

(** C3, as stated, fails: ten superscript twos hold no ASCII digit, and
    phone validation accepts them. *)
Lemma C3_superscript_digits_accepted :
  Str.all Str.ascii_digit superscript_twos = false
  /\ ten_ascii_digits (Str.strip superscript_twos) = false
  /\ Phone superscript_twos = Ok superscript_twos.
Proof. repeat split. Qed.

(** ** Records *)

Lemma set_phones_same (r : record) : Rec.set_phones r (phones r) = r.
Proof. destruct r; reflexivity. Qed.

Lemma existsb_eqb_In (x : string) (l : list string) :
  existsb (fun p => String.eqb p x) l = true <-> In x l.
Proof.
  rewrite existsb_exists. split.
  - intros (p & Hin & E). apply String.eqb_eq in E. congruence.
  - intros Hin. exists x. split; [exact Hin | apply String.eqb_refl].
Qed.

Lemma existsb_eqb_not_In (x : string) (l : list string) :
  existsb (fun p => String.eqb p x) l = false <-> ~ In x l.
Proof.
  rewrite <- existsb_eqb_In. destruct (existsb _ l); split; congruence.
Qed.

(** What [find_phone] does: it refuses a blank text and otherwise looks
    the trimmed text up. *)
Lemma find_phone_blank (r : record) (raw : string) :
  Str.strip raw = EmptyString ->
  Rec.find_phone r raw = Raise (ValueError "Phone must be a non-empty string.").
Proof. unfold Rec.find_phone. intros ->. reflexivity. Qed.

Lemma find_phone_present (r : record) (raw : string) :
  Str.strip raw <> EmptyString -> In (Str.strip raw) (phones r) ->
  Rec.find_phone r raw = Ok (Some (Str.strip raw)).
Proof.
  intros Hne Hin. unfold Rec.find_phone.
  apply truthy_true in Hne. rewrite Hne. simpl.
  apply existsb_eqb_In in Hin. rewrite Hin. reflexivity.
Qed.

Lemma find_phone_absent (r : record) (raw : string) :
  Str.strip raw <> EmptyString -> ~ In (Str.strip raw) (phones r) ->
  Rec.find_phone r raw = Ok None.
Proof.
  intros Hne Hin. unfold Rec.find_phone.
  apply truthy_true in Hne. rewrite Hne. simpl.
  apply existsb_eqb_not_In in Hin. rewrite Hin. reflexivity.
Qed.

(** C7, as amended: [find_phone] refuses only a text that is blank once
    trimmed; for any other text, of 10 digits or not, it returns the trimmed
    text when one of the record's phones equals it and null otherwise. *)
Theorem C7_find_phone (r : record) (raw : string) :
  (Str.strip raw = EmptyString ->
   Rec.find_phone r raw = Raise (ValueError "Phone must be a non-empty string."))
  /\ (Str.strip raw <> EmptyString ->
      (In (Str.strip raw) (phones r) ->
       Rec.find_phone r raw = Ok (Some (Str.strip raw)))
      /\ (~ In (Str.strip raw) (phones r) -> Rec.find_phone r raw = Ok None)).
Proof.
  split; [apply find_phone_blank|].
  intros Hne. split; [apply find_phone_present | apply find_phone_absent]; exact Hne.
Qed.

Lemma C7_find_phone_witness :
  Rec.find_phone (mkrecord "Ann" ["0501234567"] None) "   "
  = Raise (ValueError "Phone must be a non-empty string.")
  /\ Rec.find_phone (mkrecord "Ann" ["0501234567"] None) " 0501234567 "
     = Ok (Some "0501234567")
  /\ Rec.find_phone (mkrecord "Ann" ["0501234567"] None) "0509999999" = Ok None.
Proof.
  split; [|split].
  - apply (proj1 (C7_find_phone (mkrecord "Ann" ["0501234567"] None) "   ")).
    reflexivity.
  - apply (proj2 (C7_find_phone (mkrecord "Ann" ["0501234567"] None) " 0501234567 ")).
    + vm_compute. discriminate.
    + simpl. left. reflexivity.
  - apply (proj2 (C7_find_phone (mkrecord "Ann" ["0501234567"] None) "0509999999")).
    + vm_compute. discriminate.
    + simpl. intros [E|[]]. discriminate E.
Defined.

(** C7, as stated, fails: a text that is not 10 digits is not refused,
    the lookup just finds nothing. *)
Lemma C7_no_shape_check :
  ten_ascii_digits (Str.strip "abc") = false
  /\ Rec.find_phone (mkrecord "Ann" ["0501234567"] None) "abc" = Ok None.
Proof. split; reflexivity. Qed.

(** The loop of [edit_phone]. *)
Lemma edit_loop_absent (ps : list string) (old_phone new_phone : string) :
  ~ In old_phone ps ->
  Rec.edit_loop ps old_phone new_phone
  = (ps, Raise (ValueError "Phone number not found.")).
Proof.
  induction ps as [|p ps IH]; simpl; intros Hin; [reflexivity|].
  destruct (String.eqb_spec p old_phone) as [E|_]; [tauto|].
  rewrite IH by tauto. reflexivity.
Qed.

Lemma edit_loop_invalid (ps : list string) (old_phone new_phone : string) (e : exn) :
  Phone new_phone = Raise e ->
  exists e', Rec.edit_loop ps old_phone new_phone = (ps, Raise e').
Proof.
  intros Hnew. induction ps as [|p ps (e' & IH)]; simpl.
  - eauto.
  - destruct (String.eqb p old_phone).
    + rewrite Hnew. eauto.
    + rewrite IH. eauto.
Qed.

(** With the old number present and a valid new one, the loop replaces
    the first phone equal to the old number. *)
Lemma edit_loop_present (ps : list string) (old_phone new_phone v : string) :
  In old_phone ps -> Phone new_phone = Ok v ->
  exists before after : list string,
    ps = (before ++ old_phone :: after)%list /\ ~ In old_phone before
    /\ Rec.edit_loop ps old_phone new_phone = ((before ++ v :: after)%list, Ok tt).
Proof.
  intros Hin Hnew. induction ps as [|p ps IH]; [destruct Hin|]. simpl.
  destruct (String.eqb_spec p old_phone) as [E|N].
  - subst p. rewrite Hnew. exists [], ps. simpl. auto.
  - destruct Hin as [E|Hin]; [contradiction|].
    destruct (IH Hin) as (before & after & -> & Hb & ->).
    exists (p :: before), after. simpl. intuition.
Qed.

(** C9: when the new number fails phone validation, [edit_phone] raises
    and the record is as it was, whether or not the old number is there. *)
Theorem C9_edit_phone_atomic (r : record) (old_phone new_phone : string) (e : exn) :
  Phone new_phone = Raise e ->
  exists e', Rec.edit_phone r old_phone new_phone = (r, Raise e').
Proof.
  intros Hnew. unfold Rec.edit_phone.
  destruct (edit_loop_invalid (phones r) old_phone new_phone e Hnew) as (e' & ->).
  exists e'. rewrite set_phones_same. reflexivity.
Qed.

Lemma C9_edit_phone_atomic_witness :
  exists e', Rec.edit_phone (mkrecord "Ann" ["0501234567"; "0507654321"] None)
               "0507654321" "12ab"
             = (mkrecord "Ann" ["0501234567"; "0507654321"] None, Raise e').
Proof.
  apply (C9_edit_phone_atomic _ "0507654321" "12ab"
           (ValueError "Phone number must contain only digits.")).
  reflexivity.
Defined.

Lemma phones_stored_strip (r : record) (p : string) :
  phones_stored r -> In p (phones r) -> Str.strip p = p /\ p <> EmptyString.
Proof.
  intros Hst Hin. unfold phones_stored in Hst. rewrite Forall_forall in Hst.
  destruct (Phone_Ok_inv p p (Hst p Hin)) as (E & Ht & _).
  split; [congruence | apply truthy_true; exact Ht].
Qed.

Lemma count_occ_one_split (old_phone : string) (before after : list string) :
  count_occ string_dec (before ++ old_phone :: after) old_phone = 1%nat ->
  ~ In old_phone after.
Proof.
  rewrite count_occ_app. simpl. destruct (string_dec old_phone old_phone); [|congruence].
  intros H. apply (count_occ_not_In string_dec). lia.
Qed.

(** C5, as amended: [edit_phone] with an old number that is not among
    the record's phones raises "Phone number not found." and changes
    nothing; with an old number that is there and a valid new number it
    succeeds and [find_phone] of the new number then returns it; [find_phone]
    of the old number then returns null when the old number was stored only
    once and the new number is another one. *)
Theorem C5_edit_phone (r : record) (old_phone new_phone : string) :
  (~ In old_phone (phones r) ->
   Rec.edit_phone r old_phone new_phone
   = (r, Raise (ValueError "Phone number not found.")))
  /\ (forall v, In old_phone (phones r) -> Phone new_phone = Ok v ->
      exists r',
        Rec.edit_phone r old_phone new_phone = (r', Ok tt)
        /\ Rec.find_phone r' new_phone = Ok (Some v)
        /\ (phones_stored r ->
            count_occ string_dec (phones r) old_phone = 1%nat ->
            v <> old_phone ->
            Rec.find_phone r' old_phone = Ok None)).
Proof.
  split.
  - intros Hin. unfold Rec.edit_phone.
    rewrite (edit_loop_absent _ _ _ Hin), set_phones_same. reflexivity.
  - intros v Hin Hnew.
    destruct (edit_loop_present _ _ _ _ Hin Hnew) as (before & after & Hps & Hb & Hloop).
    exists (Rec.set_phones r (before ++ v :: after)).
    unfold Rec.edit_phone. rewrite Hloop.
    destruct (Phone_Ok_inv _ _ Hnew) as (Hv & Ht & _).
    split; [reflexivity|]. split.
    + rewrite Hv. apply find_phone_present.
      * rewrite <- Hv. apply truthy_true; exact Ht.
      * simpl. rewrite <- Hv. apply in_or_app. right. left. reflexivity.
    + intros Hst Hcount Hne.
      destruct (phones_stored_strip r old_phone Hst Hin) as (Hs & Hnb).
      rewrite Hps in Hcount. apply count_occ_one_split in Hcount.
      apply find_phone_absent; rewrite Hs; [exact Hnb|].
      simpl. intros Hin'. apply in_app_or in Hin' as [H|[H|H]]; auto.
Qed.

Lemma C5_edit_phone_witness :
  Rec.edit_phone (mkrecord "Ann" ["0501234567"] None) "0509999999" "0507654321"
  = (mkrecord "Ann" ["0501234567"] None, Raise (ValueError "Phone number not found."))
  /\ exists r',
       Rec.edit_phone (mkrecord "Ann" ["0501234567"] None) "0501234567" " 0507654321"
       = (r', Ok tt)
       /\ Rec.find_phone r' " 0507654321" = Ok (Some "0507654321")
       /\ Rec.find_phone r' "0501234567" = Ok None.
Proof.
  split.
  - apply (proj1 (C5_edit_phone (mkrecord "Ann" ["0501234567"] None)
                    "0509999999" "0507654321")).
    simpl. intros [E|[]]. discriminate E.
  - destruct (proj2 (C5_edit_phone (mkrecord "Ann" ["0501234567"] None)
                       "0501234567" " 0507654321") "0507654321")
      as (r' & He & Hn & Ho).
    + simpl. left. reflexivity.
    + reflexivity.
    + exists r'. split; [exact He|]. split; [exact Hn|].
      apply Ho.
      * repeat constructor.
      * reflexivity.
      * discriminate.
Defined.

(** C5, as stated, fails: with the old number stored twice, which
    [add_phone] allows, the edit replaces the first one only and the old
    number is still found. *)
Lemma C5_old_number_still_found :
  phones twice_added = ["1111111111"; "1111111111"]
  /\ Phone "2222222222" = Ok "2222222222"
  /\ Rec.edit_phone twice_added "1111111111" "2222222222"
     = (mkrecord "Ann" ["2222222222"; "1111111111"] None, Ok tt)
  /\ Rec.find_phone (mkrecord "Ann" ["2222222222"; "1111111111"] None) "1111111111"
     = Ok (Some "1111111111").
Proof. repeat split. Qed.

(** The methods keep the phones of a record well formed. *)
Lemma init_stored (raw : string) (r : record) :
  Rec.init raw = Ok r -> phones_stored r.
Proof.
  unfold Rec.init. destruct (Name raw); simpl; [|discriminate].
  intros [= <-]. constructor.
Qed.

Lemma add_phone_stored (r : record) (raw : string) :
  phones_stored r -> phones_stored (fst (Rec.add_phone r raw)).
Proof.
  unfold Rec.add_phone, phones_stored. intros Hst.
  destruct (Phone raw) as [v|e] eqn:E; simpl; [|exact Hst].
  apply Forall_app. split; [exact Hst|].
  constructor; [exact (Phone_stored _ _ E) | constructor].
Qed.

Lemma remove_phone_stored (r : record) (raw : string) :
  phones_stored r -> phones_stored (fst (Rec.remove_phone r raw)).
Proof.
  unfold Rec.remove_phone, phones_stored. intros Hst.
  destruct (Phone raw) as [v|e]; simpl; [|exact Hst].
  rewrite Forall_forall in *. intros p Hin. apply filter_In in Hin as [Hin _]. auto.
Qed.

Lemma edit_loop_stored (ps : list string) (old_phone new_phone : string) :
  Forall (fun p => Phone p = Ok p) ps ->
  Forall (fun p => Phone p = Ok p) (fst (Rec.edit_loop ps old_phone new_phone)).
Proof.
  induction 1 as [|p ps Hp Hps IH]; simpl; [constructor|].
  destruct (String.eqb p old_phone).
  - destruct (Phone new_phone) as [v|e] eqn:E; simpl; constructor; auto.
    exact (Phone_stored _ _ E).
  - destruct (Rec.edit_loop ps old_phone new_phone) as [ps' r]. simpl in *.
    constructor; assumption.
Qed.

Lemma edit_phone_stored (r : record) (old_phone new_phone : string) :
  phones_stored r -> phones_stored (fst (Rec.edit_phone r old_phone new_phone)).
Proof.
  unfold Rec.edit_phone, phones_stored. intros Hst.
  pose proof (edit_loop_stored (phones r) old_phone new_phone Hst) as H.
  destruct (Rec.edit_loop (phones r) old_phone new_phone) as [ps res]. exact H.
Qed.

(** ** The address book *)

Lemma get_None_iff (d : book) (k : string) :
  Dict.get d k = None <-> ~ In k (Dict.keys d).
Proof.
  induction d as [|[k' v] d IH]; simpl; [tauto|].
  destruct (String.eqb_spec k' k) as [E|N].
  - split; [discriminate | tauto].
  - rewrite IH. tauto.
Qed.

Lemma mem_true_iff (d : book) (k : string) :
  Dict.mem d k = true <-> In k (Dict.keys d).
Proof.
  unfold Dict.mem. destruct (Dict.get d k) eqn:E.
  - split; [|reflexivity]. intros _.
    destruct (in_dec string_dec k (Dict.keys d)) as [H|H]; [exact H|].
    apply get_None_iff in H. congruence.
  - apply get_None_iff in E. split; [discriminate | tauto].
Qed.

Lemma mem_false_iff (d : book) (k : string) :
  Dict.mem d k = false <-> ~ In k (Dict.keys d).
Proof.
  rewrite <- mem_true_iff. destruct (Dict.mem d k); split; congruence.
Qed.

Lemma keys_del_subset (d : book) (k x : string) :
  In x (Dict.keys (Dict.del d k)) -> In x (Dict.keys d).
Proof.
  induction d as [|[k' v] d IH]; simpl; [tauto|].
  destruct (String.eqb k' k); simpl; tauto.
Qed.

(** In a dictionary, where no key occurs twice, a deleted key is gone. *)
Lemma del_not_In (d : book) (k : string) :
  NoDup (Dict.keys d) -> ~ In k (Dict.keys (Dict.del d k)).
Proof.
  induction d as [|[k' v] d IH]; simpl; [tauto|].
  intros Hnd. inversion Hnd as [|? ? Hk' Hd]; subst.
  destruct (String.eqb_spec k' k) as [E|N].
  - subst. exact Hk'.
  - simpl. intros [E|Hin]; [contradiction | exact (IH Hd Hin)].
Qed.

Lemma del_NoDup (d : book) (k : string) :
  NoDup (Dict.keys d) -> NoDup (Dict.keys (Dict.del d k)).
Proof.
  induction d as [|[k' v] d IH]; simpl; [tauto|].
  intros Hnd. inversion Hnd as [|? ? Hk' Hd]; subst.
  destruct (String.eqb k' k); [exact Hd|].
  simpl. constructor; [|exact (IH Hd)].
  intros Hin. apply Hk'. eapply keys_del_subset; exact Hin.
Qed.

Lemma keys_set (d : book) (k x : string) (v : record) :
  In x (Dict.keys (Dict.set d k v)) <-> x = k \/ In x (Dict.keys d).
Proof.
  induction d as [|[k' v'] d IH]; simpl; [intuition|].
  destruct (String.eqb_spec k' k) as [E|N]; simpl; [subst|rewrite IH]; intuition.
Qed.

Lemma set_NoDup (d : book) (k : string) (v : record) :
  NoDup (Dict.keys d) -> NoDup (Dict.keys (Dict.set d k v)).
Proof.
  induction d as [|[k' v'] d IH]; simpl.
  - intros _. constructor; [tauto | constructor].
  - intros Hnd. inversion Hnd as [|? ? Hk' Hd]; subst.
    destruct (String.eqb_spec k' k) as [E|N]; simpl.
    + constructor; assumption.
    + constructor; [|exact (IH Hd)].
      rewrite keys_set. intros [E|Hin]; [congruence | contradiction].
Qed.

Lemma get_set_same (d : book) (k : string) (v : record) :
  Dict.get (Dict.set d k v) k = Some v.
Proof.
  induction d as [|[k' v'] d IH]; simpl.
  - rewrite String.eqb_refl. reflexivity.
  - destruct (String.eqb k' k) eqn:E; simpl; rewrite E; [reflexivity | exact IH].
Qed.

Lemma find_absent (b : book) (raw : string) :
  Str.strip raw <> EmptyString -> ~ In (Str.strip raw) (Dict.keys b) ->
  AddressBook.find b raw = Ok None.
Proof.
  intros Hne Hin. unfold AddressBook.find.
  apply truthy_true in Hne. rewrite Hne. simpl.
  apply mem_false_iff in Hin. rewrite Hin. reflexivity.
Qed.

(** C6: for a name (a text that is not blank once trimmed), [delete]
    raises [KeyError] and leaves the book as it is when the trimmed name is
    not a key of the book; when it is a key, [delete] succeeds and a [find]
    of that name in the book it leaves returns null. *)
Theorem C6_delete (b : book) (raw : string) :
  NoDup (Dict.keys b) ->
  Str.strip raw <> EmptyString ->
  (~ In (Str.strip raw) (Dict.keys b) ->
   AddressBook.delete b raw
   = (b, Raise (KeyError ("Contact '" ++ Str.strip raw ++ "' not found."))))
  /\ (In (Str.strip raw) (Dict.keys b) ->
      exists b', AddressBook.delete b raw = (b', Ok tt)
                 /\ AddressBook.find b' raw = Ok None).
Proof.
  intros Hnd Hne. apply truthy_true in Hne as Ht. unfold AddressBook.delete.
  rewrite Ht. simpl. split.
  - intros Hin. apply mem_false_iff in Hin. rewrite Hin. reflexivity.
  - intros Hin. apply mem_true_iff in Hin. rewrite Hin.
    exists (Dict.del b (Str.strip raw)). split; [reflexivity|].
    apply find_absent; [exact Hne | apply del_not_In; exact Hnd].
Qed.

Lemma C6_delete_witness :
  AddressBook.delete [("Ann", mkrecord "Ann" ["0501234567"] None)] " Bob "
  = ([("Ann", mkrecord "Ann" ["0501234567"] None)],
     Raise (KeyError "Contact 'Bob' not found."))
  /\ exists b',
       AddressBook.delete [("Ann", mkrecord "Ann" ["0501234567"] None)] " Ann" = (b', Ok tt)
       /\ AddressBook.find b' " Ann" = Ok None.
Proof.
  split.
  - apply (proj1 (C6_delete [("Ann", mkrecord "Ann" ["0501234567"] None)] " Bob "
                    ltac:(repeat constructor; simpl; tauto)
                    ltac:(vm_compute; discriminate))).
    vm_compute. intros [E|[]]. discriminate E.
  - apply (proj2 (C6_delete [("Ann", mkrecord "Ann" ["0501234567"] None)] " Ann"
                    ltac:(repeat constructor; simpl; tauto)
                    ltac:(vm_compute; discriminate))).
    vm_compute. left. reflexivity.
Defined.

(** A blank name is refused by [delete] before any lookup. *)
Lemma delete_blank (b : book) (raw : string) :
  Str.strip raw = EmptyString ->
  AddressBook.delete b raw = (b, Raise (ValueError "Name must be a non-empty string.")).
Proof. unfold AddressBook.delete. intros ->. reflexivity. Qed.

(** [add_record] then [find] with the record's name returns the record. *)
Lemma find_add_record (b : book) (r : record) (raw : string) :
  Str.strip raw <> EmptyString -> name r = Str.strip raw ->
  AddressBook.find (AddressBook.add_record b r) raw = Ok (Some r).
Proof.
  intros Hne Hname. unfold AddressBook.find, AddressBook.add_record.
  apply truthy_true in Hne. rewrite Hne. simpl.
  unfold Dict.mem. rewrite Hname, get_set_same. reflexivity.
Qed.

(** ** Persistence *)





(** ** Birthdays *)

Lemma digit_cases (c : ascii) :
  Str.ascii_digit c = true ->
  In c ["0"; "1"; "2"; "3"; "4"; "5"; "6"; "7"; "8"; "9"]%char.
Proof.
  destruct c as [[] [] [] [] [] [] [] []]; vm_compute; intros H;
    try discriminate H; tauto.
Qed.

Ltac each_digit H :=
  apply digit_cases in H; simpl in H;
  repeat (destruct H as [H|H]; [subst|]); [..|destruct H].

Lemma int_digits2 (a b : ascii) :
  Str.ascii_digit a = true -> Str.ascii_digit b = true ->
  Strptime.int (String a (String b EmptyString)) = 10 * digit_value a + digit_value b.
Proof.
  intros Ha Hb. unfold Strptime.int. rewrite strip_digits.
  - unfold digit_value. cbn [Strptime.int_digits]. lia.
  - simpl. rewrite Ha, Hb. reflexivity.
Qed.

Lemma int_digits4 (a b c d : ascii) :
  Str.ascii_digit a = true -> Str.ascii_digit b = true ->
  Str.ascii_digit c = true -> Str.ascii_digit d = true ->
  Strptime.int (String a (String b (String c (String d EmptyString))))
  = 1000 * digit_value a + 100 * digit_value b + 10 * digit_value c + digit_value d.
Proof.
  intros Ha Hb Hc Hd. unfold Strptime.int. rewrite strip_digits.
  - unfold digit_value. cbn [Strptime.int_digits]. lia.
  - simpl. rewrite Ha, Hb, Hc, Hd. reflexivity.
Qed.

Lemma digit_value_range (c : ascii) :
  Str.ascii_digit c = true -> 0 <= digit_value c <= 9.
Proof. unfold Str.ascii_digit, digit_value. generalize (Str.code c). intros n. lia. Qed.

(** The three groups of the format on a text of the pattern DD.MM.YYYY. *)
Lemma year_group (a b c d : ascii) (rest : string) :
  Str.ascii_digit a = true -> Str.ascii_digit b = true ->
  Str.ascii_digit c = true -> Str.ascii_digit d = true ->
  Strptime.match_groups [Strptime.re_Y]
    (String a (String b (String c (String d rest))))
  = Some ([String a (String b (String c (String d EmptyString)))], rest).
Proof.
  intros Ha Hb Hc Hd. simpl. unfold Strptime.digit. rewrite Ha, Hb, Hc, Hd. reflexivity.
Qed.

Lemma day_group (a b : ascii) (gs : list (list Strptime.alt)) (t : string) :
  Str.ascii_digit a = true -> Str.ascii_digit b = true ->
  Strptime.match_groups (Strptime.re_d :: Strptime.re_dot :: gs)
    (String a (String b (String "." t)))
  = if (1 <=? 10 * digit_value a + digit_value b)
       && (10 * digit_value a + digit_value b <=? 31)
    then match Strptime.match_groups gs t with
         | Some (ts, r) => Some (String a (String b EmptyString) :: "." :: ts, r)
         | None => None
         end
    else None.
Proof.
  intros Ha Hb. change (Strptime.match_groups (Strptime.re_d :: Strptime.re_dot :: gs))
    with (fun s => Strptime.match_alts Strptime.re_d s
                     (fun s' => Strptime.match_alts Strptime.re_dot s'
                                  (Strptime.match_groups gs))).
  generalize (Strptime.match_groups gs). intros k.
  each_digit Ha; each_digit Hb; simpl; destruct (k t) as [[ts r]|]; reflexivity.
Qed.

Lemma month_group (a b : ascii) (gs : list (list Strptime.alt)) (t : string) :
  Str.ascii_digit a = true -> Str.ascii_digit b = true ->
  Strptime.match_groups (Strptime.re_m :: Strptime.re_dot :: gs)
    (String a (String b (String "." t)))
  = if (1 <=? 10 * digit_value a + digit_value b)
       && (10 * digit_value a + digit_value b <=? 12)
    then match Strptime.match_groups gs t with
         | Some (ts, r) => Some (String a (String b EmptyString) :: "." :: ts, r)
         | None => None
         end
    else None.
Proof.
  intros Ha Hb. change (Strptime.match_groups (Strptime.re_m :: Strptime.re_dot :: gs))
    with (fun s => Strptime.match_alts Strptime.re_m s
                     (fun s' => Strptime.match_alts Strptime.re_dot s'
                                  (Strptime.match_groups gs))).
  generalize (Strptime.match_groups gs). intros k.
  each_digit Ha; each_digit Hb; simpl; destruct (k t) as [[ts r]|]; reflexivity.
Qed.

Lemma check_date_fields_cases (y m d : Z) :
  DT.check_date_fields y m d = Ok tt
  \/ exists msg, DT.check_date_fields y m d = Raise (ValueError msg).
Proof.
  unfold DT.check_date_fields.
  repeat match goal with
         | |- context [if ?b then _ else _] => destruct b
         end; eauto.
Qed.

Lemma check_date_fields_Ok (y m d : Z) :
  DT.check_date_fields y m d = Ok tt <->
  1 <= y <= 9999 /\ 1 <= m <= 12 /\ 1 <= d <= DT.days_in_month y m.
Proof.
  unfold DT.check_date_fields, DT.MINYEAR, DT.MAXYEAR.
  destruct ((1 <=? y) && (y <=? 9999)) eqn:Hy; simpl;
  [destruct ((1 <=? m) && (m <=? 12)) eqn:Hm; simpl;
   [destruct ((1 <=? d) && (d <=? DT.days_in_month y m)) eqn:Hd; simpl|]|];
  split; try discriminate; try lia; reflexivity.
Qed.

Lemma days_in_month_le_31 (y m : Z) : DT.days_in_month y m <= 31.
Proof.
  unfold DT.days_in_month, DT.DAYS_IN_MONTH.
  repeat match goal with
         | |- context [if ?b then _ else _] => destruct b
         end; lia.
Qed.

Lemma strptime_raises (s : string) (e : exn) :
  Strptime.strptime s = Raise e -> exists msg, e = ValueError msg.
Proof.
  unfold Strptime.strptime.
  destruct (Strptime.match_format s) as [[[[d m] Y] rest]|]; [|intros [= <-]; eauto].
  destruct (Str.truthy rest); [intros [= <-]; eauto|].
  destruct (check_date_fields_cases (Strptime.int Y) (Strptime.int m) (Strptime.int d))
    as [->|(msg & ->)]; simpl; [discriminate | intros [= <-]; eauto].
Qed.

(** [Birthday] stores what [strptime] reads when it is in range, and
    raises nothing but [ValueError]. *)
Lemma Birthday_Ok_iff (now : datetime) (s : string) (v : datetime) :
  Birthday now s = Ok v <->
  Strptime.strptime s = Ok v /\ 1900 <= year v /\ DT.gt v now = false.
Proof.
  unfold Birthday. destruct (Strptime.strptime s) as [v'|e] eqn:E; simpl.
  - destruct (year v' <? 1900) eqn:Hy; simpl.
    + split; [discriminate|]. intros ([= ->] & H & _). lia.
    + destruct (DT.gt v' now) eqn:Hg; simpl.
      * split; [discriminate|]. intros ([= ->] & _ & H). congruence.
      * split; [intros [= ->]; repeat split; [lia | exact Hg]|].
        intros ([= ->] & _). reflexivity.
  - split; [|intros ([=] & _)].
    destruct e as [msg|msg|msg|msg]; try discriminate.
    destruct (Str.contains _ msg); discriminate.
Qed.

Lemma Birthday_cases (now : datetime) (s : string) :
  (exists v, Birthday now s = Ok v) \/ exists msg, Birthday now s = Raise (ValueError msg).
Proof.
  unfold Birthday. destruct (Strptime.strptime s) as [v'|e] eqn:E; simpl.
  - destruct ((year v' <? 1900) || DT.gt v' now); simpl; eauto.
  - destruct (strptime_raises s e E) as (msg & ->).
    destruct (Str.contains _ msg); eauto.
Qed.

Lemma Birthday_refuses (now : datetime) (s : string) :
  (forall v, Birthday now s <> Ok v) -> exists msg, Birthday now s = Raise (ValueError msg).
Proof.
  intros H. destruct (Birthday_cases now s) as [(v & E)|E]; [|exact E].
  destruct (H v E).
Qed.

(** A text of the pattern DD.MM.YYYY, character by character. *)
Lemma DDMMYYYY_inv (s : string) :
  DDMMYYYY s = true ->
  exists c1 c2 c3 c4 c5 c6 c7 c8,
    s = String c1 (String c2 (String "." (String c3 (String c4 (String "."
          (String c5 (String c6 (String c7 (String c8 EmptyString)))))))))
    /\ Forall (fun c => Str.ascii_digit c = true) [c1; c2; c3; c4; c5; c6; c7; c8].
Proof.
  unfold DDMMYYYY.
  destruct s as [|c1 [|c2 [|p1 [|c3 [|c4 [|p2 [|c5 [|c6 [|c7 [|c8 [|]]]]]]]]]]];
    simpl; rewrite ?andb_false_r; try discriminate.
  rewrite !andb_true_iff. unfold dg.
  intros (H1 & H2 & Hp1 & H3 & H4 & Hp2 & H5 & H6 & H7 & H8 & _).
  assert (Hdot : forall c, dot c = true -> c = "."%char).
  { intros c. unfold dot, Strptime.lit, Strptime.range. intros H.
    apply andb_prop in H as [Ha Hb]. apply Z.leb_le in Ha, Hb.
    assert (E : N_of_ascii c = N_of_ascii ".") by (unfold Str.code in *; lia).
    rewrite <- (ascii_N_embedding c), E. reflexivity. }
  apply Hdot in Hp1, Hp2. subst.
  exists c1, c2, c3, c4, c5, c6, c7, c8. split; [reflexivity|].
  repeat constructor; assumption.
Qed.

Lemma denoted_eq (c1 c2 c3 c4 c5 c6 c7 c8 : ascii) :
  Forall (fun c => Str.ascii_digit c = true) [c1; c2; c3; c4; c5; c6; c7; c8] ->
  denoted (String c1 (String c2 (String "." (String c3 (String c4 (String "."
             (String c5 (String c6 (String c7 (String c8 EmptyString))))))))))
  = (1000 * digit_value c5 + 100 * digit_value c6 + 10 * digit_value c7 + digit_value c8,
     10 * digit_value c3 + digit_value c4,
     10 * digit_value c1 + digit_value c2).
Proof.
  intros H. repeat match goal with H : Forall _ (_ :: _) |- _ => inversion_clear H end.
  unfold denoted. cbn [String.substring].
  rewrite int_digits4, !int_digits2 by assumption. reflexivity.
Qed.

(** [strptime] on a text of the pattern DD.MM.YYYY: the date it denotes,
    when there is such a date. *)
Lemma strptime_DDMMYYYY (s : string) (y m d : Z) :
  DDMMYYYY s = true -> denoted s = (y, m, d) ->
  (DT.check_date_fields y m d = Ok tt ->
   Strptime.strptime s = Ok (mkdatetime y m d 0 0 0 0))
  /\ (DT.check_date_fields y m d <> Ok tt -> forall v, Strptime.strptime s <> Ok v).
Proof.
  intros Hs Hden.
  destruct (DDMMYYYY_inv s Hs) as (c1 & c2 & c3 & c4 & c5 & c6 & c7 & c8 & -> & Hall).
  rewrite (denoted_eq _ _ _ _ _ _ _ _ Hall) in Hden.
  apply pair_equal_spec in Hden as [Hden Hd]. apply pair_equal_spec in Hden as [Hy Hm].
  repeat match goal with H : Forall _ (_ :: _) |- _ => inversion_clear H end.
  unfold Strptime.strptime, Strptime.match_format, Strptime.format_regex.
  rewrite day_group, month_group, year_group by assumption.
  rewrite Hd, Hm.
  destruct ((1 <=? d) && (d <=? 31)) eqn:Ed;
    [destruct ((1 <=? m) && (m <=? 12)) eqn:Em|].
  - cbn [Str.truthy]. rewrite int_digits4, !int_digits2 by assumption.
    rewrite Hy, Hm, Hd. split.
    + intros ->. reflexivity.
    + intros Hc v. destruct (check_date_fields_cases y m d) as [E|(msg & ->)];
        [contradiction | discriminate].
  - split; [|discriminate]. intros Hc. apply check_date_fields_Ok in Hc. lia.
  - split; [|discriminate]. intros Hc. apply check_date_fields_Ok in Hc.
    pose proof (days_in_month_le_31 y m). lia.
Qed.

(** What a match tells about the text: it is made of the texts of the
    groups, each fitting one alternative of its group, and of the rest. *)
Lemma match_alt_sound (a : Strptime.alt) (s t r : string) :
  Strptime.match_alt a s = Some (t, r) -> s = t ++ r /\ fits a t = true.
Proof.
  revert s t r. induction a as [|p a IH]; simpl; intros s t r.
  - intros [= <- <-]. auto.
  - destruct s as [|c s]; [discriminate|].
    destruct (p c) eqn:Hp; [|discriminate].
    destruct (Strptime.match_alt a s) as [[t' r']|] eqn:E; [|discriminate].
    intros [= <- <-]. destruct (IH _ _ _ E) as [-> Hf]. simpl. rewrite Hp. auto.
Qed.

Lemma match_alts_sound (alts : list Strptime.alt) (s : string)
  (k : string -> option (list string * string)) (ts : list string) (r : string) :
  Strptime.match_alts alts s k = Some (ts, r) ->
  exists a t ts' r0,
    In a alts /\ fits a t = true /\ s = t ++ r0 /\ k r0 = Some (ts', r) /\ ts = t :: ts'.
Proof.
  induction alts as [|a alts IH]; simpl; [discriminate|].
  destruct (Strptime.match_alt a s) as [[t r0]|] eqn:E.
  - destruct (k r0) as [[ts' r']|] eqn:Ek.
    + intros [= <- <-]. destruct (match_alt_sound _ _ _ _ E) as [-> Hf].
      exists a, t, ts', r0. auto.
    + intros H. destruct (IH H) as (a' & t' & ts' & r1 & Hin & Hrest).
      exists a', t', ts', r1. auto.
  - intros H. destruct (IH H) as (a' & t' & ts' & r1 & Hin & Hrest).
    exists a', t', ts', r1. auto.
Qed.

Lemma fits_app (a b : list (ascii -> bool)) (t u : string) :
  fits a t = true -> fits b u = true -> fits (a ++ b) (t ++ u) = true.
Proof.
  revert t. induction a as [|p a IH]; intros [|c t]; simpl; try discriminate; auto.
  intros H Hu. apply andb_prop in H as [Hp Ht]. rewrite Hp. simpl. auto.
Qed.

Lemma fits_within (a l : list (ascii -> bool)) (t : string) :
  Forall2 within a l -> fits a t = true -> fits l t = true.
Proof.
  intros H. revert t. induction H as [|p q a l Hpq _ IH]; intros [|c t]; simpl;
    try discriminate; auto.
  intros H. apply andb_prop in H as [Hp Ht]. rewrite (Hpq c Hp). simpl. auto.
Qed.

Ltac by_chars :=
  intros [[] [] [] [] [] [] [] []]; vm_compute; intros H;
  first [exact H | reflexivity | discriminate H].

Lemma within_digit : within Strptime.digit dg.
Proof. intros c H. exact H. Qed.

Lemma within_dot : within (Strptime.lit ".") dot.
Proof. intros c H. exact H. Qed.

Lemma within_blank : within (Strptime.lit " ") blank.
Proof. intros c H. exact H. Qed.

Lemma within_3 : within (Strptime.lit "3") dg.
Proof. by_chars. Qed.

Lemma within_0 : within (Strptime.lit "0") dg.
Proof. by_chars. Qed.

Lemma within_1 : within (Strptime.lit "1") dg.
Proof. by_chars. Qed.

Lemma within_01 : within (Strptime.range "0" "1") dg.
Proof. by_chars. Qed.

Lemma within_02 : within (Strptime.range "0" "2") dg.
Proof. by_chars. Qed.

Lemma within_12 : within (Strptime.range "1" "2") dg.
Proof. by_chars. Qed.

Lemma within_19 : within (Strptime.range "1" "9") dg.
Proof. by_chars. Qed.

Create HintDb classes.
#[local] Hint Resolve within_digit within_dot within_blank within_3 within_0 within_1
  within_01 within_02 within_12 within_19 : classes.

(** A text that [strptime] reads has one of the six layouts. *)
Lemma strptime_layout (s : string) (v : datetime) :
  Strptime.strptime s = Ok v -> day_month_year_layout s = true.
Proof.
  unfold Strptime.strptime, Strptime.match_format.
  destruct (Strptime.match_groups Strptime.format_regex s) as [[ts rest]|] eqn:E;
    [|discriminate].
  unfold Strptime.format_regex in E. cbn [Strptime.match_groups] in E.
  apply match_alts_sound in E as (ad & td & ts1 & r1 & Hd & Fd & -> & E & ->).
  apply match_alts_sound in E as (a1 & t1 & ts2 & r2 & H1 & F1 & -> & E & ->).
  apply match_alts_sound in E as (am & tm & ts3 & r3 & Hm & Fm & -> & E & ->).
  apply match_alts_sound in E as (a2 & t2 & ts4 & r4 & H2 & F2 & -> & E & ->).
  apply match_alts_sound in E as (aY & tY & ts5 & r5 & HY & FY & -> & E & ->).
  injection E as E1 E2. subst ts5 r5. cbn iota.
  destruct (Str.truthy rest) eqn:Hrest; [discriminate|].
  apply truthy_false in Hrest. subst rest. intros _.
  pose proof (fits_app _ _ _ _ F2 (fits_app _ _ _ _ FY (eq_refl : fits [] "" = true))) as F.
  pose proof (fits_app _ _ _ _ Fd (fits_app _ _ _ _ F1 (fits_app _ _ _ _ Fm F))) as Fall.
  clear -Fall Hd H1 Hm H2 HY.
  unfold day_month_year_layout. apply existsb_exists.
  simpl in Hd, H1, Hm, H2, HY.
  repeat match goal with
         | H : _ \/ _ |- _ => destruct H as [H|H]
         | H : False |- _ => destruct H
         end; subst; simpl app in Fall;
  match goal with
  | |- exists l, In l layouts /\ fits l ?s = true =>
      first
        [ exists (nth 0 layouts []); split; [simpl; tauto|];
          eapply fits_within; [|exact Fall]; solve [repeat constructor; auto with classes]
        | exists (nth 1 layouts []); split; [simpl; tauto|];
          eapply fits_within; [|exact Fall]; solve [repeat constructor; auto with classes]
        | exists (nth 2 layouts []); split; [simpl; tauto|];
          eapply fits_within; [|exact Fall]; solve [repeat constructor; auto with classes]
        | exists (nth 3 layouts []); split; [simpl; tauto|];
          eapply fits_within; [|exact Fall]; solve [repeat constructor; auto with classes]
        | exists (nth 4 layouts []); split; [simpl; tauto|];
          eapply fits_within; [|exact Fall]; solve [repeat constructor; auto with classes]
        | exists (nth 5 layouts []); split; [simpl; tauto|];
          eapply fits_within; [|exact Fall]; solve [repeat constructor; auto with classes] ]
  end.
Qed.

(** A date at midnight is later than [now] exactly when its day is
    after the day of [now]. *)
Lemma gt_midnight (y m d : Z) (now : datetime) :
  DT.valid now = true ->
  DT.gt (mkdatetime y m d 0 0 0 0) now = negb (not_after y m d now).
Proof.
  unfold DT.valid, DT.check_time_fields. rewrite !andb_true_iff, !Z.leb_le.
  intros (_ & (((((((Hh & _) & Hmi) & _) & Hs) & _) & Hus) & _)).
  unfold DT.gt, DT.lt, not_after, DT.fields. cbn [DT.cmp year month day hour minute second microsecond].
  repeat match goal with
         | |- context [?a ?= ?b] => destruct (Z.compare_spec a b)
         end; try reflexivity; lia.
Qed.

(** What [strptime] reads is a midnight. *)
Lemma strptime_midnight (s : string) (v : datetime) :
  Strptime.strptime s = Ok v -> v = mkdatetime (year v) (month v) (day v) 0 0 0 0.
Proof.
  unfold Strptime.strptime.
  destruct (Strptime.match_format s) as [[[[d m] Y] rest]|]; [|discriminate].
  destruct (Str.truthy rest); [discriminate|].
  destruct (DT.check_date_fields _ _ _); cbn [bind]; [|discriminate].
  intros [= <-]. reflexivity.
Qed.

(** C4, as amended: a text of the pattern DD.MM.YYYY that denotes a
    date of the calendar with a year from 1900 on and a day not after the
    current day is accepted by birthday validation; a text that is read as a
    date with a year before 1900 or a day after the current day is refused,
    whether it has that pattern or not; and, among the texts whose characters
    are all below U+0100 (every ASCII text is one), so is every text that has
    neither that pattern nor one of its variants with a one-digit day (a space
    may stand before it) or a one-digit month.  The digits of the pattern and
    of its variants are the ASCII digits; beyond U+0100 there are other
    decimal digits, which [strptime] reads as well and of which nothing is
    said here. *)
Theorem C4_birthday_validation (now : datetime) (s : string) :
  DT.valid now = true ->
  (below_256 s = true -> day_month_year_layout s = false ->
   exists msg, Birthday now s = Raise (ValueError msg))
  /\ (forall v, Strptime.strptime s = Ok v ->
      year v < 1900 \/ not_after (year v) (month v) (day v) now = false ->
      exists msg, Birthday now s = Raise (ValueError msg))
  /\ (DDMMYYYY s = true -> forall y m d, denoted s = (y, m, d) ->
      (DT.check_date_fields y m d = Ok tt /\ 1900 <= y /\ not_after y m d now = true ->
       Birthday now s = Ok (mkdatetime y m d 0 0 0 0))
      /\ (y < 1900 \/ not_after y m d now = false ->
          exists msg, Birthday now s = Raise (ValueError msg))).
Proof.
  intros Hnow.
  assert (Hread : forall v, Strptime.strptime s = Ok v ->
            year v < 1900 \/ not_after (year v) (month v) (day v) now = false ->
            exists msg, Birthday now s = Raise (ValueError msg)).
  { intros v Hv Hout. apply Birthday_refuses. intros v' Hv'.
    apply Birthday_Ok_iff in Hv' as (Hv' & Hy & Hgt).
    rewrite Hv in Hv'. injection Hv' as <-.
    rewrite (strptime_midnight s v Hv), (gt_midnight _ _ _ _ Hnow) in Hgt.
    apply negb_false_iff in Hgt. destruct Hout as [Hout|Hout]; [lia | congruence]. }
  split; [|split; [exact Hread|]].
  - intros _ Hlay. apply Birthday_refuses. intros v Hv.
    apply Birthday_Ok_iff in Hv as (Hv & _).
    apply strptime_layout in Hv. congruence.
  - intros Hs y m d Hden.
    destruct (strptime_DDMMYYYY s y m d Hs Hden) as [Hok Hbad]. split.
    + intros (Hdate & Hy & Hna). apply Birthday_Ok_iff. split; [exact (Hok Hdate)|].
      split; [exact Hy|]. rewrite (gt_midnight _ _ _ _ Hnow), Hna. reflexivity.
    + intros Hout.
      destruct (check_date_fields_cases y m d) as [Hdate|(msg & Hdate)].
      * apply (Hread _ (Hok Hdate)). exact Hout.
      * apply Birthday_refuses. intros v Hv.
        apply Birthday_Ok_iff in Hv as (Hv & _).
        apply (Hbad ltac:(congruence) v Hv).
Qed.

Lemma C4_birthday_validation_witness :
  (exists msg, Birthday monday_morning "24-12-1990" = Raise (ValueError msg))
  /\ (exists msg, Birthday monday_morning "1.1.1899" = Raise (ValueError msg))
  /\ Birthday monday_morning "24.12.1990" = Ok (mkdatetime 1990 12 24 0 0 0 0)
  /\ (exists msg, Birthday monday_morning "24.12.1899" = Raise (ValueError msg))
  /\ (exists msg, Birthday monday_morning "11.06.2024" = Raise (ValueError msg)).
Proof.
  split; [|split; [|split; [|split]]].
  - apply (proj1 (C4_birthday_validation monday_morning "24-12-1990" eq_refl)).
    + reflexivity.
    + reflexivity.
  - apply (proj1 (proj2 (C4_birthday_validation monday_morning "1.1.1899" eq_refl))
             (mkdatetime 1899 1 1 0 0 0 0) eq_refl).
    left. simpl. lia.
  - apply (proj1 (proj2 (proj2 (C4_birthday_validation monday_morning "24.12.1990" eq_refl))
                    eq_refl 1990 12 24 eq_refl)).
    split; [reflexivity | split; [lia | reflexivity]].
  - apply (proj2 (proj2 (proj2 (C4_birthday_validation monday_morning "24.12.1899" eq_refl))
                    eq_refl 1899 12 24 eq_refl)).
    left. lia.
  - apply (proj2 (proj2 (proj2 (C4_birthday_validation monday_morning "11.06.2024" eq_refl))
                    eq_refl 2024 6 11 eq_refl)).
    right. reflexivity.
Defined.

(** C4, as stated, fails: a text with a one-digit day and month does
    not have the pattern DD.MM.YYYY, and birthday validation accepts it. *)
Lemma C4_one_digit_day_accepted :
  DDMMYYYY "1.1.2000" = false
  /\ Birthday monday_morning "1.1.2000" = Ok (mkdatetime 2000 1 1 0 0 0 0).
Proof. split; reflexivity. Qed.

(** ** The calendar *)

Lemma is_leap_parts (n400 n100 n4 n1 : Z) :
  0 <= n100 <= 3 -> 0 <= n4 <= 24 -> 0 <= n1 <= 3 ->
  DT.is_leap (n400 * 400 + 1 + n100 * 100 + n4 * 4 + n1)
  = (n1 =? 3) && (negb (n4 =? 24) || (n100 =? 3)).
Proof.
  intros H100 H4 H1. unfold DT.is_leap.
  repeat match goal with
         | |- context [?a =? ?b] => destruct (Z.eqb_spec a b)
         end; simpl; try reflexivity; exfalso; Z.div_mod_to_equations; lia.
Qed.

Lemma days_before_year_parts (n400 n100 n4 n1 : Z) :
  0 <= n100 <= 3 -> 0 <= n4 <= 24 -> 0 <= n1 <= 3 ->
  DT.days_before_year (n400 * 400 + 1 + n100 * 100 + n4 * 4 + n1)
  = n400 * 146097 + n100 * 36524 + n4 * 1461 + n1 * 365.
Proof.
  intros H100 H4 H1. unfold DT.days_before_year.
  Z.div_mod_to_equations. lia.
Qed.

Lemma month_of_day_cases (n : Z) :
  0 <= n <= 365 ->
  In (Z.shiftr (n + 50) 5) [1; 2; 3; 4; 5; 6; 7; 8; 9; 10; 11; 12].
Proof.
  intros H. rewrite Z.shiftr_div_pow2 by lia. change (2 ^ 5) with 32.
  assert (1 <= (n + 50) / 32 <= 12) by (Z.div_mod_to_equations; lia).
  simpl. lia.
Qed.

(** The day of the year [n] (from 0) as a month and a day. *)
Ltac eval_tables :=
  repeat match goal with
         | |- context [DT.DAYS_IN_MONTH ?k] =>
             let v := eval vm_compute in (DT.DAYS_IN_MONTH k) in
             change (DT.DAYS_IN_MONTH k) with v
         | |- context [DT.DAYS_BEFORE_MONTH ?k] =>
             let v := eval vm_compute in (DT.DAYS_BEFORE_MONTH k) in
             change (DT.DAYS_BEFORE_MONTH k) with v
         end.

(** The day of the year [n] (from 0) as a month and a day. *)
Lemma month_day_ok (leap : bool) (n : Z) :
  0 <= n <= (if leap then 365 else 364) ->
  let m := Z.shiftr (n + 50) 5 in
  let preceding := DT.DAYS_BEFORE_MONTH m + (if (2 <? m) && leap then 1 else 0) in
  let m' := m - 1 in
  let preceding' :=
    preceding - (DT.DAYS_IN_MONTH m' + (if (m' =? 2) && leap then 1 else 0)) in
  if n <? preceding
  then 1 <= m' <= 12
       /\ preceding' = DT.DAYS_BEFORE_MONTH m' + (if (2 <? m') && leap then 1 else 0)
       /\ 1 <= n - preceding' + 1
          <= DT.DAYS_IN_MONTH m' + (if (m' =? 2) && leap then 1 else 0)
  else 1 <= m <= 12
       /\ 1 <= n - preceding + 1
          <= DT.DAYS_IN_MONTH m + (if (m =? 2) && leap then 1 else 0).
Proof.
  intros H.
  assert (Hm : In (Z.shiftr (n + 50) 5) [1; 2; 3; 4; 5; 6; 7; 8; 9; 10; 11; 12]).
  { apply month_of_day_cases. destruct leap; lia. }
  assert (Hs : Z.shiftr (n + 50) 5 = (n + 50) / 32).
  { rewrite Z.shiftr_div_pow2 by lia. reflexivity. }
  cbv zeta. simpl in Hm.
  repeat (destruct Hm as [Hm|Hm]; [rewrite <- Hm; rewrite <- Hm in Hs|]);
    [..|destruct Hm];
    destruct leap; simpl; eval_tables;
    match goal with
    | |- context [?a <? ?b] => destruct (Z.ltb_spec a b)
    end; Z.div_mod_to_equations; lia.
Qed.

Lemma days_in_month_alt (y m : Z) :
  DT.days_in_month y m
  = DT.DAYS_IN_MONTH m + (if (m =? 2) && DT.is_leap y then 1 else 0).
Proof.
  unfold DT.days_in_month. destruct (Z.eqb_spec m 2) as [->|]; simpl; [|lia].
  destruct (DT.is_leap y); reflexivity.
Qed.

(** [ord2ymd] gives a date of the calendar, and [ymd2ord] leads back. *)
Lemma ord2ymd_spec (n : Z) :
  1 <= n ->
  let '(y, m, d) := DT.ord2ymd n in
  DT.ymd2ord y m d = n /\ 1 <= y /\ 1 <= m <= 12 /\ 1 <= d <= DT.days_in_month y m.
Proof.
  intros Hn. unfold DT.ord2ymd, DT.DI400Y, DT.DI100Y, DT.DI4Y. cbv zeta.
  pose proof (Z.div_mod (n - 1) 146097 ltac:(lia)) as E400.
  pose proof (Z.mod_pos_bound (n - 1) 146097 ltac:(lia)) as B400.
  pose proof (Z.div_pos (n - 1) 146097 ltac:(lia) ltac:(lia)) as P400.
  set (n400 := (n - 1) / 146097) in *. set (r400 := (n - 1) mod 146097) in *.
  pose proof (Z.div_mod r400 36524 ltac:(lia)) as E100.
  pose proof (Z.mod_pos_bound r400 36524 ltac:(lia)) as B100.
  pose proof (Z.div_pos r400 36524 ltac:(lia) ltac:(lia)) as P100.
  set (n100 := r400 / 36524) in *. set (r100 := r400 mod 36524) in *.
  pose proof (Z.div_mod r100 1461 ltac:(lia)) as E4.
  pose proof (Z.mod_pos_bound r100 1461 ltac:(lia)) as B4.
  pose proof (Z.div_pos r100 1461 ltac:(lia) ltac:(lia)) as P4.
  set (n4 := r100 / 1461) in *. set (r4 := r100 mod 1461) in *.
  pose proof (Z.div_mod r4 365 ltac:(lia)) as E1.
  pose proof (Z.mod_pos_bound r4 365 ltac:(lia)) as B1.
  pose proof (Z.div_pos r4 365 ltac:(lia) ltac:(lia)) as P1.
  set (n1 := r4 / 365) in *. set (r1 := r4 mod 365) in *.
  clearbody n400 r400 n100 r100 n4 r4 n1 r1.
  destruct (Z.eqb_spec n1 4) as [H14|H14]; cbn [orb];
    [|destruct (Z.eqb_spec n100 4) as [H1004|H1004]].
  - (* the last day of a leap year *)
    replace (n400 * 400 + 1 + n100 * 100 + n4 * 4 + n1 - 1)
      with (n400 * 400 + 1 + n100 * 100 + n4 * 4 + 3) by lia.
    unfold DT.ymd2ord, DT.days_before_month. rewrite days_in_month_alt.
    rewrite days_before_year_parts, is_leap_parts by lia.
    destruct (Z.eqb_spec n4 24); [lia|].
    change (3 =? 3) with true. cbn [negb andb orb]. eval_tables.
    change (2 <? 12) with true. change (12 =? 2) with false. cbn [andb]. lia.
  - (* the last day of a cycle of 400 years *)
    replace (n400 * 400 + 1 + n100 * 100 + n4 * 4 + n1 - 1)
      with (n400 * 400 + 1 + 3 * 100 + 24 * 4 + 3) by lia.
    unfold DT.ymd2ord, DT.days_before_month. rewrite days_in_month_alt.
    rewrite days_before_year_parts, is_leap_parts by lia.
    change ((3 =? 3) && (negb (24 =? 24) || (3 =? 3))) with true. eval_tables.
    change (2 <? 12) with true. change (12 =? 2) with false. cbn [andb]. lia.
  - set (y := n400 * 400 + 1 + n100 * 100 + n4 * 4 + n1).
    set (leapyear := (n1 =? 3) && (negb (n4 =? 24) || (n100 =? 3))).
    assert (Hleap : DT.is_leap y = leapyear) by (apply is_leap_parts; lia).
    assert (Hdby : DT.days_before_year y
                   = n400 * 146097 + n100 * 36524 + n4 * 1461 + n1 * 365)
      by (apply days_before_year_parts; lia).
    pose proof (month_day_ok leapyear r1 ltac:(destruct leapyear; lia)) as Hmd.
    cbv zeta in Hmd.
    destruct (r1 <? _) eqn:Hlt in Hmd |- *.
    + destruct Hmd as (Hm & Hp & Hd).
      unfold DT.ymd2ord, DT.days_before_month. rewrite days_in_month_alt, Hleap, Hdby.
      rewrite <- Hp. repeat split; try lia.
    + destruct Hmd as (Hm & Hd).
      unfold DT.ymd2ord, DT.days_before_month. rewrite days_in_month_alt, Hleap, Hdby.
      repeat split; try lia.
Qed.

(** Adding days moves the ordinal by as many and keeps the time of day. *)
Lemma add_days_spec (t t' : datetime) (k : Z) :
  DT.add_days t k = Ok t' ->
  DT.toordinal t' = DT.toordinal t + k
  /\ DT.check_date_fields (year t') (month t') (day t') = Ok tt
  /\ hour t' = hour t /\ minute t' = minute t
  /\ second t' = second t /\ microsecond t' = microsecond t.
Proof.
  unfold DT.add_days.
  destruct ((0 <? DT.toordinal t + k) && (DT.toordinal t + k <=? DT.MAXORDINAL)) eqn:Hr;
    [|discriminate].
  apply andb_prop in Hr as [Hlo Hhi]. apply Z.ltb_lt in Hlo. apply Z.leb_le in Hhi.
  pose proof (ord2ymd_spec (DT.toordinal t + k) ltac:(lia)) as Hspec.
  destruct (DT.ord2ymd (DT.toordinal t + k)) as [[y m] d].
  destruct Hspec as (Hord & Hy & Hm & Hd). intros [= <-].
  cbn [year month day hour minute second microsecond]. unfold DT.toordinal at 1.
  cbn [year month day]. repeat split; try assumption.
  apply check_date_fields_Ok. repeat split; try lia.
  (* the year stays within 9999 because the ordinal does *)
  destruct (Z.le_gt_cases y 9999) as [Hle|Hgt]; [exact Hle|exfalso].
  assert (DT.days_before_year 10000 <= DT.days_before_year y).
  { unfold DT.days_before_year. Z.div_mod_to_equations. lia. }
  assert (0 <= DT.days_before_month y m).
  { unfold DT.days_before_month, DT.DAYS_BEFORE_MONTH.
    assert (Hc : In m [1; 2; 3; 4; 5; 6; 7; 8; 9; 10; 11; 12]) by (simpl; lia).
    simpl in Hc.
    repeat (destruct Hc as [Hc|Hc]; [subst m; simpl; destruct (DT.is_leap y); lia|]).
    destruct Hc. }
  unfold DT.ymd2ord in Hord. unfold DT.MAXORDINAL in Hhi.
  change (DT.days_before_year 10000) with 3652059 in *. lia.
Qed.

Lemma weekday_add_days (t t' : datetime) (k : Z) :
  DT.add_days t k = Ok t' -> DT.weekday t' = (DT.weekday t + k) mod 7.
Proof.
  intros H. apply add_days_spec in H as (Hord & _).
  unfold DT.weekday. rewrite Hord. Z.div_mod_to_equations. lia.
Qed.

(** ** Upcoming birthdays *)

Lemma valid_inv (t : datetime) :
  DT.valid t = true ->
  DT.check_date_fields (year t) (month t) (day t) = Ok tt
  /\ 0 <= hour t <= 23 /\ 0 <= minute t <= 59
  /\ 0 <= second t <= 59 /\ 0 <= microsecond t <= 999999.
Proof.
  unfold DT.valid, DT.check_time_fields. rewrite !andb_true_iff, !Z.leb_le.
  intros (Hd & H). split; [|lia].
  destruct (check_date_fields_cases (year t) (month t) (day t)) as [E|(msg & E)];
    [exact E | rewrite E in Hd; discriminate].
Qed.

(** Between two midnights the days counted are the days of the calendar. *)
Lemma sub_days_midnight (a b : datetime) :
  midnight a -> midnight b -> DT.sub_days a b = DT.toordinal a - DT.toordinal b.
Proof.
  intros (Ha1 & Ha2 & Ha3 & Ha4) (Hb1 & Hb2 & Hb3 & Hb4).
  unfold DT.sub_days, DT.total_us, DT.seconds_of_day.
  rewrite Ha1, Ha2, Ha3, Ha4, Hb1, Hb2, Hb3, Hb4.
  replace ((DT.toordinal a * 86400 + (0 + 0 * 60 + 0 * 3600)) * 1000000 + 0
           - ((DT.toordinal b * 86400 + (0 + 0 * 60 + 0 * 3600)) * 1000000 + 0))
    with ((DT.toordinal a - DT.toordinal b) * 86400000000) by lia.
  apply Z.div_mul. lia.
Qed.

(** From one year to the next the same day and month is at least 365
    days further. *)
Lemma ymd2ord_next_year (y m d : Z) :
  365 <= DT.ymd2ord (y + 1) m d - DT.ymd2ord y m d.
Proof.
  unfold DT.ymd2ord, DT.days_before_year, DT.days_before_month, DT.is_leap.
  replace (y + 1 - 1) with y by lia.
  destruct (2 <? m); simpl;
    repeat match goal with
           | |- context [?a =? ?b] => destruct (Z.eqb_spec a b)
           end; simpl; Z.div_mod_to_equations; lia.
Qed.

(** What goes wrong in the morning: once the day has begun, a birthday
    that falls on the day of [today] counts as gone, is moved to the next
    year and is passed over. *)
Lemma birthday_today_passed_over (today b : datetime) (r : record) :
  DT.valid today = true -> ~ midnight today -> year today < 9999 ->
  birthday r = Some b -> midnight b ->
  month b = month today -> day b = day today ->
  ~ (month b = 2 /\ day b = 29) ->
  AddressBook.loop_body today r = Ok None.
Proof.
  intros Hv Hnm Hy Hb (Hh & Hmi & Hs & Hus) Hm Hd Hleap.
  destruct (valid_inv today Hv) as (Hdate & Hth & Htm & Hts & Htu).
  apply check_date_fields_Ok in Hdate as Hrange.
  unfold AddressBook.loop_body, AddressBook.next_birthday, DT.replace_year.
  rewrite Hb, Hm, Hd, Hdate. cbn [bind].
  assert (Hlt : DT.lt (mkdatetime (year today) (month today) (day today)
                         (hour b) (minute b) (second b) (microsecond b)) today = true).
  { unfold DT.lt, DT.fields. cbn [DT.cmp year month day hour minute second microsecond].
    rewrite !Z.compare_refl, Hh, Hmi, Hs, Hus.
    unfold midnight in Hnm.
    repeat match goal with
           | |- context [?x ?= ?y] => destruct (Z.compare_spec x y)
           end; try reflexivity; lia. }
  rewrite Hlt. cbn [year month day hour minute second microsecond].
  assert (Hnext : DT.check_date_fields (year today + 1) (month today) (day today) = Ok tt).
  { apply check_date_fields_Ok. split; [lia|]. split; [lia|]. split; [lia|].
    rewrite Hm, Hd in Hleap. revert Hrange Hleap. unfold DT.days_in_month.
    destruct (month today =? 2) eqn:E2; cbn [andb].
    - apply Z.eqb_eq in E2. unfold DT.DAYS_IN_MONTH. rewrite E2.
      destruct (DT.is_leap (year today)), (DT.is_leap (year today + 1)); simpl; lia.
    - lia. }
  rewrite Hnext. cbn [bind].
  assert (Hdays : 7 < DT.sub_days
                        (mkdatetime (year today + 1) (month today) (day today)
                           (hour b) (minute b) (second b) (microsecond b)) today).
  { unfold DT.sub_days, DT.total_us, DT.seconds_of_day, DT.toordinal.
    cbn [year month day hour minute second microsecond].
    rewrite Hh, Hmi, Hs, Hus.
    pose proof (ymd2ord_next_year (year today) (month today) (day today)).
    apply Z.lt_le_trans with 8; [lia|].
    apply Z.div_le_lower_bound; lia. }
  unfold AddressBook.period_days.
  destruct (Z.leb_spec (DT.sub_days
                          (mkdatetime (year today + 1) (month today) (day today)
                             (hour b) (minute b) (second b) (microsecond b)) today) 7);
    [lia | reflexivity].
Qed.

(** An exception in one turn of the loop ends the query. *)
Lemma loop_raises (today : datetime) (users : list record) (r : record) :
  In r users -> (exists e, AddressBook.loop_body today r = Raise e) ->
  forall acc, exists e, AddressBook.loop today users acc = Raise e.
Proof.
  intros Hin (e & He). induction users as [|u users IH]; [destruct Hin|].
  intros acc. cbn [AddressBook.loop].
  destruct (AddressBook.loop_body today u) as [[[c u']|]|e'] eqn:Eu; cbn [bind].
  - destruct Hin as [->|Hin]; [congruence | apply IH, Hin].
  - destruct Hin as [->|Hin]; [congruence | apply IH, Hin].
  - eauto.
Qed.

(** A birthday on 29 February cannot be moved to a year that is not a
    leap year: with such a record in the book the query raises. *)
Lemma leap_day_raises (today b : datetime) (bk : book) (r : record) :
  In r (Dict.values bk) -> birthday r = Some b ->
  month b = 2 -> day b = 29 -> DT.is_leap (year today) = false ->
  exists e, AddressBook.get_upcoming_birthday today bk = Raise e.
Proof.
  intros Hin Hb Hm Hd Hleap. unfold AddressBook.get_upcoming_birthday.
  apply (loop_raises today _ r Hin).
  unfold AddressBook.loop_body, AddressBook.next_birthday, DT.replace_year.
  rewrite Hb, Hm, Hd.
  destruct (check_date_fields_cases (year today) 2 29) as [E|(msg & ->)].
  - apply check_date_fields_Ok in E.
    replace (DT.days_in_month (year today) 2) with 28 in E
      by (unfold DT.days_in_month; rewrite Hleap; reflexivity).
    lia.
  - cbn [bind]. eauto.
Qed.

(** The records returned are records of the book, as they are stored:
    no date comes with them. *)
Lemma loop_subset (today : datetime) (users acc out : list record) :
  AddressBook.loop today users acc = Ok out ->
  forall r, In r out -> In r acc \/ In r users.
Proof.
  revert acc. induction users as [|u users IH]; intros acc; cbn [AddressBook.loop].
  - intros [= <-]. auto.
  - destruct (AddressBook.loop_body today u) as [[[c u']|]|e] eqn:Eu; cbn [bind];
      [|intros H r Hr; destruct (IH _ H r Hr); simpl; auto | discriminate].
    assert (u' = u) as ->.
    { revert Eu. unfold AddressBook.loop_body. destruct (birthday u); [|discriminate].
      destruct (AddressBook.next_birthday today d); cbn [bind]; [|discriminate].
      destruct (_ <=? _); [|discriminate].
      destruct (AddressBook.shift_weekend a); cbn [bind]; [|discriminate].
      intros [= _ <-]. reflexivity. }
    intros H r Hr. destruct (IH _ H r Hr) as [Hacc|Hu]; simpl; auto.
    apply in_app_or in Hacc as [Hacc|[->|[]]]; auto.
Qed.

Lemma get_upcoming_birthday_subset (today : datetime) (bk : book) (out : list record) :
  AddressBook.get_upcoming_birthday today bk = Ok out ->
  forall r, In r out -> In r (Dict.values bk).
Proof.
  intros H r Hr. destruct (loop_subset today _ _ _ H r Hr) as [[]|Hin]. exact Hin.
Qed.

(** The move of a week-end date: Saturday goes 2 days on and Sunday 1
    day on, both to a Monday; any other day stays. *)
Lemma shift_weekend_spec (t t' : datetime) :
  AddressBook.shift_weekend t = Ok t' ->
  (DT.weekday t = 5 -> DT.toordinal t' = DT.toordinal t + 2 /\ DT.weekday t' = 0)
  /\ (DT.weekday t = 6 -> DT.toordinal t' = DT.toordinal t + 1 /\ DT.weekday t' = 0)
  /\ (DT.weekday t <> 5 -> DT.weekday t <> 6 -> t' = t).
Proof.
  unfold AddressBook.shift_weekend.
  destruct (Z.eqb_spec (DT.weekday t) 5) as [E5|N5];
    [|destruct (Z.eqb_spec (DT.weekday t) 6) as [E6|N6]]; intros H.
  - pose proof (weekday_add_days _ _ _ H) as Hw. apply add_days_spec in H as (Hord & _).
    rewrite E5 in Hw. repeat split; try lia; try (intros; lia).
    exact Hw.
  - pose proof (weekday_add_days _ _ _ H) as Hw. apply add_days_spec in H as (Hord & _).
    rewrite E6 in Hw. repeat split; try lia; try (intros; lia).
    exact Hw.
  - injection H as <-. repeat split; try lia; reflexivity.
Qed.

(** Once the day has begun, the days counted to a later midnight are
    one less than the days of the calendar. *)
Lemma sub_days_morning (a b : datetime) :
  midnight a -> DT.valid b = true -> ~ midnight b ->
  DT.sub_days a b = DT.toordinal a - DT.toordinal b - 1.
Proof.
  intros (Ha1 & Ha2 & Ha3 & Ha4) Hv Hnm.
  destruct (valid_inv b Hv) as (_ & Hh & Hmi & Hs & Hus).
  unfold midnight in Hnm.
  unfold DT.sub_days, DT.total_us, DT.seconds_of_day.
  rewrite Ha1, Ha2, Ha3, Ha4. symmetry.
  apply Z.div_unique with
    (r := 86400000000
          - ((second b + minute b * 60 + hour b * 3600) * 1000000 + microsecond b)); lia.
Qed.

(** One turn of the loop, by the days counted to the next birthday. *)
Lemma loop_body_cases (today b p : datetime) (r : record) :
  birthday r = Some b -> AddressBook.next_birthday today b = Ok p ->
  (DT.sub_days p today <= 7 -> forall s, AddressBook.shift_weekend p = Ok s ->
   AddressBook.loop_body today r = Ok (Some (DT.strftime_Ymd s, r)))
  /\ (7 < DT.sub_days p today -> AddressBook.loop_body today r = Ok None).
Proof.
  intros Hb Hp. unfold AddressBook.loop_body. rewrite Hb, Hp. cbn [bind].
  unfold AddressBook.period_days.
  destruct (Z.leb_spec (DT.sub_days p today) 7); split; try lia.
  - intros _ s ->. reflexivity.
  - reflexivity.
Qed.

Lemma loop_body_None_iff (today b p : datetime) (r : record) :
  birthday r = Some b -> AddressBook.next_birthday today b = Ok p ->
  AddressBook.loop_body today r = Ok None <-> 7 < DT.sub_days p today.
Proof.
  intros Hb Hp. unfold AddressBook.loop_body. rewrite Hb, Hp. cbn [bind].
  unfold AddressBook.period_days.
  destruct (Z.leb_spec (DT.sub_days p today) 7).
  - destruct (AddressBook.shift_weekend p); cbn [bind]; split; try discriminate; lia.
  - split; [lia | reflexivity].
Qed.

(** When [today] is a midnight the window is the one of the
    specification: a next birthday more than 7 days of the calendar away,
    and no other, is passed over. *)
Lemma window_at_midnight (today b p : datetime) (r : record) :
  birthday r = Some b -> AddressBook.next_birthday today b = Ok p ->
  midnight today -> midnight p ->
  AddressBook.loop_body today r = Ok None <-> 7 < DT.toordinal p - DT.toordinal today.
Proof.
  intros Hb Hp Ht Hm. rewrite (loop_body_None_iff today b p r Hb Hp).
  rewrite (sub_days_midnight p today Hm Ht). reflexivity.
Qed.

(** Once the day has begun the window ends a day later: a next
    birthday is passed over when it is more than 8 days of the calendar away. *)
Lemma window_in_the_day (today b p : datetime) (r : record) :
  birthday r = Some b -> AddressBook.next_birthday today b = Ok p ->
  DT.valid today = true -> ~ midnight today -> midnight p ->
  AddressBook.loop_body today r = Ok None <-> 8 < DT.toordinal p - DT.toordinal today.
Proof.
  intros Hb Hp Hv Ht Hm. rewrite (loop_body_None_iff today b p r Hb Hp).
  rewrite (sub_days_morning p today Hm Hv Ht). lia.
Qed.

(** The sample records are records that the methods make. *)
Lemma samples_made :
  made monday_morning "Ann" "10.06.1990" = Ok (born "Ann" 10 6)
  /\ made monday_morning "Ann" "15.06.1990" = Ok (born "Ann" 15 6)
  /\ made monday_morning "Cid" "18.06.1990" = Ok (born "Cid" 18 6)
  /\ made monday_morning "Lea" "29.02.2000" = Ok leapling
  /\ AddressBook.add_record AddressBook.empty leapling = [("Lea", leapling)].
Proof. repeat split. Qed.

(** C1, on the code: [today] carries the time of day and the birthdays
    are at midnight, so at ten in the morning of 10 June 2024 a birthday on
    10 June is passed over (it counts as gone and moves to 2025), while one on
    18 June, 8 days away, is returned (7 days and 14 hours count as 7 days). *)
Theorem C1_window_at_ten :
  AddressBook.get_upcoming_birthday monday_morning
    [("Ann", born "Ann" 10 6); ("Bob", born "Bob" 17 6);
     ("Cid", born "Cid" 18 6); ("Dan", born "Dan" 19 6)]
  = Ok [born "Bob" 17 6; born "Cid" 18 6]
  /\ AddressBook.next_birthday monday_morning (mkdatetime 1990 6 10 0 0 0 0)
     = Ok (mkdatetime 2025 6 10 0 0 0 0)
  /\ DT.sub_days (mkdatetime 2024 6 18 0 0 0 0) monday_morning = 7.
Proof. repeat split. Qed.

(** C2, on the code: for a birthday on Saturday 15 June 2024 the loop
    works out the congratulation date Monday 17 June, but the query returns
    the record alone and the [birthdays] command prints the day and month of
    the birthday itself. *)
Theorem C2_shifted_date_not_reported :
  DT.weekday (mkdatetime 2024 6 15 0 0 0 0) = 5
  /\ AddressBook.loop_body monday_morning (born "Ann" 15 6)
     = Ok (Some ("2024.06.17", born "Ann" 15 6))
  /\ AddressBook.get_upcoming_birthday monday_morning [("Ann", born "Ann" 15 6)]
     = Ok [born "Ann" 15 6]
  /\ upcoming_birthdays monday_morning [("Ann", born "Ann" 15 6)]
     = (["🎉 Upcoming birthdays: 🎉"; "Ann: 15.06"], None).
Proof. repeat split. Qed.

(** C10, on the code: 29.02.2000 is a birthday that validation accepts,
    and with it in the book the query raises in 2023, which is not a leap
    year: the birthday cannot be moved to that year. *)
Theorem C10_leap_day_raises :
  Birthday monday_morning "29.02.2000" = Ok (mkdatetime 2000 2 29 0 0 0 0)
  /\ AddressBook.get_upcoming_birthday (mkdatetime 2023 6 10 10 0 0 0)
       [("Lea", leapling)]
     = Raise (ValueError "day is out of range for month")
  /\ AddressBook.get_upcoming_birthday (mkdatetime 2024 6 10 10 0 0 0)
       [("Lea", leapling)]
     = Raise (ValueError "day is out of range for month").
Proof. repeat split. Qed.

(* ================================================================== *)
(** * Further properties of the program *)

(** ** More on strings and fields *)

Lemma rstrip_idempotent (s : string) : Str.rstrip (Str.rstrip s) = Str.rstrip s.
Proof.
  induction s as [|c s IH]; [reflexivity|]. cbn [Str.rstrip].
  destruct (Str.rstrip s) as [|c' r] eqn:E.
  - destruct (Str.isspace_char c) eqn:Hc; [reflexivity|].
    cbn [Str.rstrip]. rewrite Hc. reflexivity.
  - cbn [Str.rstrip] in IH |- *. rewrite IH. reflexivity.
Qed.

Lemma lstrip_head (s : string) :
  match Str.lstrip s with
  | EmptyString => True
  | String c _ => Str.isspace_char c = false
  end.
Proof.
  induction s as [|c s IH]; simpl; [exact I|].
  destruct (Str.isspace_char c) eqn:Hc; [exact IH | exact Hc].
Qed.

Lemma rstrip_head (s : string) :
  match Str.rstrip s with
  | EmptyString => True
  | String c _ => exists s', s = String c s'
  end.
Proof.
  destruct s as [|c s]; simpl; [exact I|].
  destruct (Str.rstrip s); [destruct (Str.isspace_char c)|]; simpl; eauto.
Qed.

(** Trimming twice is trimming once. *)
Lemma strip_idempotent (s : string) : Str.strip (Str.strip s) = Str.strip s.
Proof.
  unfold Str.strip.
  pose proof (lstrip_head s) as Hl. pose proof (rstrip_head (Str.lstrip s)) as Hr.
  destruct (Str.rstrip (Str.lstrip s)) as [|c t] eqn:E; [reflexivity|].
  destruct Hr as (s' & Hs'). rewrite Hs' in Hl.
  cbn [Str.lstrip]. rewrite Hl. rewrite <- E. apply rstrip_idempotent.
Qed.

Lemma Name_Ok_inv (raw n : string) :
  Name raw = Ok n -> n = Str.strip raw /\ n <> EmptyString.
Proof.
  unfold Name. destruct (Str.truthy (Str.strip raw)) eqn:E; simpl; [|discriminate].
  intros [= <-]. split; [reflexivity | apply truthy_true; exact E].
Qed.

Lemma Name_trimmed (n : string) :
  Str.strip n = n -> n <> EmptyString -> Name n = Ok n.
Proof.
  intros Hs Hne. unfold Name. rewrite Hs.
  apply truthy_true in Hne. rewrite Hne. reflexivity.
Qed.

Lemma Name_fixed (raw n : string) :
  Name raw = Ok n -> n <> EmptyString /\ Str.strip n = n /\ Name n = Ok n.
Proof.
  intros H. apply Name_Ok_inv in H as (-> & Hne).
  pose proof (strip_idempotent raw) as Hs.
  repeat split; [exact Hne | exact Hs | apply Name_trimmed; assumption].
Qed.

(** X1.  A stored name is not blank, has no white space at either end,
    and is stored as it is when it is given again. *)
Theorem Name_stored (raw n : string) :
  Name raw = Ok n -> n <> EmptyString /\ Str.strip n = n /\ Name n = Ok n.
Proof. exact (Name_fixed raw n). Qed.

Lemma Name_stored_witness :
  "Ann Lee" <> EmptyString /\ Str.strip "Ann Lee" = "Ann Lee" /\ Name "Ann Lee" = Ok "Ann Lee".
Proof. apply (Name_stored "  Ann Lee " "Ann Lee"). reflexivity. Defined.

(** ** More on records *)

Lemma find_phone_In (r : record) (q x : string) :
  Rec.find_phone r q = Ok (Some x) <->
  Str.strip q <> EmptyString /\ x = Str.strip q /\ In x (phones r).
Proof.
  unfold Rec.find_phone. destruct (Str.truthy (Str.strip q)) eqn:Ht; simpl.
  - apply truthy_true in Ht.
    destruct (existsb _ (phones r)) eqn:E.
    + apply existsb_eqb_In in E. split.
      * intros [= <-]. auto.
      * intros (_ & -> & _). reflexivity.
    + apply existsb_eqb_not_In in E. split; [discriminate|].
      intros (_ & -> & Hin). contradiction.
  - apply truthy_false in Ht. split; [discriminate|]. intros (H & _). contradiction.
Qed.

(** The outcome of [find_phone] depends on the phones only through
    whether the trimmed text is among them. *)
Lemma find_phone_same (r r' : record) (q : string) :
  (In (Str.strip q) (phones r) <-> In (Str.strip q) (phones r')) ->
  Rec.find_phone r q = Rec.find_phone r' q.
Proof.
  intros H. unfold Rec.find_phone.
  destruct (Str.truthy (Str.strip q)); simpl; [|reflexivity].
  destruct (existsb _ (phones r)) eqn:E.
  - apply existsb_eqb_In in E. apply H in E. apply existsb_eqb_In in E.
    rewrite E. reflexivity.
  - apply existsb_eqb_not_In in E. rewrite H in E. apply existsb_eqb_not_In in E.
    rewrite E. reflexivity.
Qed.

(** X2.  [add_phone] with a valid number appends its value, so that
    [find_phone] of the text then finds it and every number found before is
    still found; with a text that [Phone] refuses it raises and leaves the
    record as it is. *)
Theorem add_phone_find (r : record) (raw : string) :
  (forall v, Phone raw = Ok v ->
     exists r', Rec.add_phone r raw = (r', Ok tt)
       /\ phones r' = (phones r ++ [v])%list
       /\ name r' = name r /\ birthday r' = birthday r
       /\ Rec.find_phone r' raw = Ok (Some v)
       /\ forall q x, Rec.find_phone r q = Ok (Some x) ->
                      Rec.find_phone r' q = Ok (Some x))
  /\ (forall e, Phone raw = Raise e -> Rec.add_phone r raw = (r, Raise e)).
Proof.
  split.
  - intros v Hv. unfold Rec.add_phone. rewrite Hv.
    exists (Rec.set_phones r (phones r ++ [v])).
    destruct (Phone_Ok_inv _ _ Hv) as (Es & Ht & _).
    repeat split.
    + rewrite Es. apply find_phone_present.
      * rewrite <- Es. apply truthy_true, Ht.
      * simpl. rewrite <- Es. apply in_or_app. right. left. reflexivity.
    + intros q x Hq. apply find_phone_In in Hq as (Hne & -> & Hin).
      apply find_phone_present; [exact Hne|]. simpl. apply in_or_app. left. exact Hin.
  - intros e He. unfold Rec.add_phone. rewrite He. reflexivity.
Qed.

Lemma add_phone_find_witness :
  exists r', Rec.add_phone (mkrecord "Ann" ["0501234567"] None) " 0507654321" = (r', Ok tt)
    /\ phones r' = ["0501234567"; "0507654321"]
    /\ Rec.find_phone r' " 0507654321" = Ok (Some "0507654321").
Proof.
  destruct (proj1 (add_phone_find (mkrecord "Ann" ["0501234567"] None) " 0507654321")
              "0507654321" eq_refl) as (r' & H1 & H2 & _ & _ & H3 & _).
  exists r'. auto.
Defined.

(** X3.  [remove_phone] with a valid number removes every phone equal
    to it and nothing else: the number is not found afterwards, the outcome of
    [find_phone] for any other text is as before, and nothing is raised when
    the number was not there; with a text that [Phone] refuses it raises and
    leaves the record as it is. *)
Theorem remove_phone_find (r : record) (raw : string) :
  (forall v, Phone raw = Ok v ->
     exists r', Rec.remove_phone r raw = (r', Ok tt)
       /\ (forall p, In p (phones r') <-> In p (phones r) /\ p <> v)
       /\ Rec.find_phone r' raw = Ok None
       /\ forall q, Str.strip q <> v -> Rec.find_phone r' q = Rec.find_phone r q)
  /\ (forall e, Phone raw = Raise e -> Rec.remove_phone r raw = (r, Raise e)).
Proof.
  split.
  - intros v Hv. unfold Rec.remove_phone. rewrite Hv.
    set (r' := Rec.set_phones r _). exists r'.
    assert (Hin : forall p, In p (phones r') <-> In p (phones r) /\ p <> v).
    { intros p. unfold r'. simpl. rewrite filter_In, negb_true_iff.
      destruct (String.eqb_spec p v); split; intros [H1 H2]; split;
        auto; congruence. }
    destruct (Phone_Ok_inv _ _ Hv) as (Es & Ht & _).
    split; [reflexivity|]. split; [exact Hin|]. split.
    + apply find_phone_absent.
      * rewrite <- Es. apply truthy_true, Ht.
      * rewrite <- Es, Hin. tauto.
    + intros q Hq. apply find_phone_same. rewrite Hin. tauto.
  - intros e He. unfold Rec.remove_phone. rewrite He. reflexivity.
Qed.

Lemma remove_phone_find_witness :
  exists r', Rec.remove_phone (mkrecord "Ann" ["0501234567"; "0507654321"; "0501234567"] None)
               "0501234567" = (r', Ok tt)
    /\ Rec.find_phone r' "0501234567" = Ok None
    /\ Rec.find_phone r' "0507654321" = Ok (Some "0507654321").
Proof.
  destruct (proj1 (remove_phone_find
                     (mkrecord "Ann" ["0501234567"; "0507654321"; "0501234567"] None)
                     "0501234567") "0501234567" eq_refl) as (r' & H1 & _ & H2 & H3).
  exists r'. split; [exact H1|]. split; [exact H2|].
  rewrite (H3 "0507654321"); [reflexivity | vm_compute; discriminate].
Defined.

(** X4.  A successful [edit_phone] keeps the number of phones, the name
    and the birthday, and changes no other number: for a text that is neither
    the old number nor the new value, [find_phone] answers as before. *)
Theorem edit_phone_frame (r r' : record) (old_phone new_phone v : string) :
  Rec.edit_phone r old_phone new_phone = (r', Ok tt) -> Phone new_phone = Ok v ->
  List.length (phones r') = List.length (phones r)
  /\ name r' = name r /\ birthday r' = birthday r
  /\ forall q, Str.strip q <> old_phone -> Str.strip q <> v ->
               Rec.find_phone r' q = Rec.find_phone r q.
Proof.
  intros He Hv. unfold Rec.edit_phone in He.
  destruct (in_dec string_dec old_phone (phones r)) as [Hin|Hnin].
  - destruct (edit_loop_present _ _ _ _ Hin Hv) as (before & after & Hps & Hb & Hloop).
    rewrite Hloop in He. injection He as <-. simpl. rewrite Hps.
    repeat split.
    + rewrite !length_app. reflexivity.
    + intros q Hq Hqv. apply find_phone_same. simpl. rewrite Hps, !in_app_iff. simpl.
      split; intros [H|[H|H]]; auto; congruence.
  - rewrite (edit_loop_absent _ _ _ Hnin) in He. discriminate.
Qed.

Lemma edit_phone_frame_witness :
  List.length (phones (mkrecord "Ann" ["0507654321"; "0509999999"] None))
  = List.length (phones (mkrecord "Ann" ["0501234567"; "0509999999"] None))
  /\ Rec.find_phone (mkrecord "Ann" ["0507654321"; "0509999999"] None) "0509999999"
     = Rec.find_phone (mkrecord "Ann" ["0501234567"; "0509999999"] None) "0509999999".
Proof.
  destruct (edit_phone_frame (mkrecord "Ann" ["0501234567"; "0509999999"] None)
              (mkrecord "Ann" ["0507654321"; "0509999999"] None)
              "0501234567" "0507654321" "0507654321" eq_refl eq_refl)
    as (H1 & _ & _ & H2).
  split; [exact H1|]. apply H2; vm_compute; discriminate.
Defined.

(** X5.  The methods keep the phones of a record such as [Phone] stores
    them (10 characters, all digits): a new record has none, and [add_phone],
    [remove_phone] and [edit_phone] keep the property whether they succeed or
    raise. *)
Theorem phones_stay_stored (r : record) :
  phones_stored r ->
  (forall raw, phones_stored (fst (Rec.add_phone r raw)))
  /\ (forall raw, phones_stored (fst (Rec.remove_phone r raw)))
  /\ (forall old_phone new_phone, phones_stored (fst (Rec.edit_phone r old_phone new_phone)))
  /\ forall p, In p (phones r) ->
       Str.len p = 10 /\ Str.all Str.isdigit_char p = true /\ Str.strip p = p.
Proof.
  intros H. split; [|split; [|split]].
  - intros raw. apply add_phone_stored, H.
  - intros raw. apply remove_phone_stored, H.
  - intros o n. apply edit_phone_stored, H.
  - intros p Hin. unfold phones_stored in H. rewrite Forall_forall in H.
    destruct (Phone_Ok_inv _ _ (H p Hin)) as (Es & _ & Hd & Hl). auto.
Qed.

Lemma phones_stay_stored_witness :
  phones_stored (fst (Rec.add_phone (mkrecord "Ann" ["0501234567"] None) "0507654321")).
Proof.
  apply (proj1 (phones_stay_stored (mkrecord "Ann" ["0501234567"] None)
                  ltac:(repeat constructor))).
Defined.

(** ** More on birthdays *)

Lemma Z_in_range (lo len : nat) (n : Z) :
  Z.of_nat lo <= n < Z.of_nat lo + Z.of_nat len ->
  In n (map Z.of_nat (seq lo len)).
Proof.
  intros H. apply in_map_iff. exists (Z.to_nat n). split; [lia|].
  apply in_seq. lia.
Qed.

(** The two digits that [%d] and [%m] write, and the four of [%Y]. *)
Lemma pad2_text (n : Z) :
  0 <= n <= 99 ->
  DT.pad2 n = String (digit_char (n / 10)) (String (digit_char (n mod 10)) EmptyString).
Proof.
  intros H.
  assert (Hall : forallb (fun k => String.eqb (DT.pad2 k)
                   (String (digit_char (k / 10)) (String (digit_char (k mod 10)) EmptyString)))
                   (map Z.of_nat (seq 0 100)) = true) by (vm_compute; reflexivity).
  rewrite forallb_forall in Hall. apply String.eqb_eq, Hall.
  apply (Z_in_range 0 100). lia.
Qed.

Lemma show_text4 (n : Z) :
  1000 <= n <= 9999 ->
  DT.show n = String (digit_char (n / 1000)) (String (digit_char (n / 100 mod 10))
                (String (digit_char (n / 10 mod 10))
                   (String (digit_char (n mod 10)) EmptyString))).
Proof.
  intros H.
  assert (Hall : forallb (fun hi => forallb (fun lo =>
                   let k := 100 * hi + lo in
                   String.eqb (DT.show k)
                     (String (digit_char (k / 1000)) (String (digit_char (k / 100 mod 10))
                        (String (digit_char (k / 10 mod 10))
                           (String (digit_char (k mod 10)) EmptyString)))))
                   (map Z.of_nat (seq 0 100))) (map Z.of_nat (seq 10 90)) = true)
    by (vm_compute; reflexivity).
  rewrite forallb_forall in Hall.
  specialize (Hall (n / 100) ltac:(apply (Z_in_range 10 90); Z.div_mod_to_equations; lia)).
  rewrite forallb_forall in Hall.
  specialize (Hall (n mod 100) ltac:(apply (Z_in_range 0 100); Z.div_mod_to_equations; lia)).
  cbv zeta in Hall. rewrite <- (Z.div_mod n 100) in Hall by lia.
  apply String.eqb_eq, Hall.
Qed.

Lemma digit_char_value (c : ascii) :
  Str.ascii_digit c = true -> digit_char (digit_value c) = c.
Proof.
  intros H. unfold digit_char, digit_value, Str.code.
  replace (48 + (Z.of_N (N_of_ascii c) - 48)) with (Z.of_N (N_of_ascii c)) by lia.
  rewrite N2Z.id. apply ascii_N_embedding.
Qed.

Lemma digit_char_digit (k : Z) :
  0 <= k <= 9 -> Str.ascii_digit (digit_char k) = true /\ digit_value (digit_char k) = k.
Proof.
  intros H. assert (Hc : In k (map Z.of_nat (seq 0 10))) by (apply (Z_in_range 0 10); lia).
  simpl in Hc. repeat (destruct Hc as [<-|Hc]; [split; reflexivity|]). destruct Hc.
Qed.

(** What [Birthday] stores is a date of the calendar, at midnight, from
    1900 on and not after the day of [now]. *)
Lemma strptime_valid (s : string) (v : datetime) :
  Strptime.strptime s = Ok v -> DT.valid v = true /\ midnight v.
Proof.
  unfold Strptime.strptime.
  destruct (Strptime.match_format s) as [[[[d m] Y] rest]|]; [|discriminate].
  destruct (Str.truthy rest); [discriminate|].
  destruct (DT.check_date_fields _ _ _) as [[]|e] eqn:E; cbn [bind]; [|discriminate].
  intros [= <-]. unfold DT.valid, midnight. simpl. rewrite E. auto.
Qed.

(** X6.  What [Birthday] stores is a date of the calendar, at midnight,
    with a year from 1900 to the current year and a day not after the
    current day. *)
Theorem Birthday_stored (now : datetime) (s : string) (v : datetime) :
  DT.valid now = true -> Birthday now s = Ok v ->
  birthday_ok v /\ year v <= year now
  /\ not_after (year v) (month v) (day v) now = true.
Proof.
  intros Hnow H. apply Birthday_Ok_iff in H as (Hs & Hy & Hgt).
  destruct (strptime_valid s v Hs) as (Hv & Hm).
  rewrite (strptime_midnight s v Hs), (gt_midnight _ _ _ _ Hnow) in Hgt.
  apply negb_false_iff in Hgt. cbn [year month day] in Hgt.
  split; [|split].
  - unfold birthday_ok. auto.
  - revert Hgt. unfold not_after. cbn [DT.cmp].
    destruct (Z.compare_spec (year v) (year now)); [lia | lia | discriminate].
  - exact Hgt.
Qed.

Lemma Birthday_stored_witness :
  birthday_ok (mkdatetime 1990 12 24 0 0 0 0) /\ 1990 <= year monday_morning
  /\ not_after 1990 12 24 monday_morning = true.
Proof.
  apply (Birthday_stored monday_morning "24.12.1990" (mkdatetime 1990 12 24 0 0 0 0));
    reflexivity.
Defined.

Lemma pad2_digits (a b : ascii) :
  Str.ascii_digit a = true -> Str.ascii_digit b = true ->
  DT.pad2 (10 * digit_value a + digit_value b) = String a (String b EmptyString).
Proof.
  intros Ha Hb.
  pose proof (digit_value_range a Ha). pose proof (digit_value_range b Hb).
  rewrite pad2_text by lia.
  replace ((10 * digit_value a + digit_value b) / 10) with (digit_value a)
    by (Z.div_mod_to_equations; lia).
  replace ((10 * digit_value a + digit_value b) mod 10) with (digit_value b)
    by (Z.div_mod_to_equations; lia).
  rewrite !digit_char_value by assumption. reflexivity.
Qed.

Lemma show_digits4 (a b c d : ascii) :
  Str.ascii_digit a = true -> Str.ascii_digit b = true ->
  Str.ascii_digit c = true -> Str.ascii_digit d = true ->
  1000 <= 1000 * digit_value a + 100 * digit_value b + 10 * digit_value c + digit_value d ->
  DT.show (1000 * digit_value a + 100 * digit_value b + 10 * digit_value c + digit_value d)
  = String a (String b (String c (String d EmptyString))).
Proof.
  intros Ha Hb Hc Hd Hn.
  pose proof (digit_value_range a Ha). pose proof (digit_value_range b Hb).
  pose proof (digit_value_range c Hc). pose proof (digit_value_range d Hd).
  rewrite show_text4 by lia.
  set (n := 1000 * digit_value a + 100 * digit_value b + 10 * digit_value c + digit_value d).
  replace (n / 1000) with (digit_value a) by (subst n; Z.div_mod_to_equations; lia).
  replace (n / 100 mod 10) with (digit_value b) by (subst n; Z.div_mod_to_equations; lia).
  replace (n / 10 mod 10) with (digit_value c) by (subst n; Z.div_mod_to_equations; lia).
  replace (n mod 10) with (digit_value d) by (subst n; Z.div_mod_to_equations; lia).
  rewrite !digit_char_value by assumption. reflexivity.
Qed.

Lemma strftime_dmY_typed (now : datetime) (s : string) (v : datetime) :
  DDMMYYYY s = true -> Birthday now s = Ok v -> strftime_dmY v = s.
Proof.
  intros Hs H. apply Birthday_Ok_iff in H as (Hv & Hy & _).
  destruct (DDMMYYYY_inv s Hs) as (c1 & c2 & c3 & c4 & c5 & c6 & c7 & c8 & E & Hall).
  pose proof (denoted_eq _ _ _ _ _ _ _ _ Hall) as Hden. rewrite <- E in Hden.
  destruct (strptime_DDMMYYYY s _ _ _ Hs Hden) as [Hok Hbad].
  destruct (check_date_fields_cases
              (1000 * digit_value c5 + 100 * digit_value c6 + 10 * digit_value c7
               + digit_value c8)
              (10 * digit_value c3 + digit_value c4)
              (10 * digit_value c1 + digit_value c2)) as [Hdate|(msg & Hdate)];
    [|exfalso; apply (Hbad ltac:(congruence) v Hv)].
  rewrite (Hok Hdate) in Hv.
  apply (f_equal (fun r => match r with Ok x => x | Raise _ => v end)) in Hv.
  subst v. cbn [year] in Hy.
  repeat match goal with H : Forall _ (_ :: _) |- _ => inversion_clear H end.
  unfold strftime_dmY. cbn [year month day].
  rewrite !pad2_digits, show_digits4 by (assumption || lia).
  rewrite E. reflexivity.
Qed.

(** X7.  What was typed in the pattern DD.MM.YYYY and accepted is what
    [strftime('%d.%m.%Y')] of the stored birthday writes. *)
Theorem birthday_shown_as_typed (now : datetime) (s : string) (v : datetime) :
  DDMMYYYY s = true -> Birthday now s = Ok v -> strftime_dmY v = s.
Proof. exact (strftime_dmY_typed now s v). Qed.

Lemma birthday_shown_as_typed_witness :
  strftime_dmY (mkdatetime 1990 12 24 0 0 0 0) = "24.12.1990".
Proof.
  apply (birthday_shown_as_typed monday_morning "24.12.1990"); reflexivity.
Defined.

(** A date from 1900 on, written by [strftime('%d.%m.%Y')], has the
    pattern DD.MM.YYYY and denotes that date. *)
Lemma strftime_dmY_pattern (v : datetime) :
  DT.valid v = true -> 1000 <= year v ->
  DDMMYYYY (strftime_dmY v) = true
  /\ denoted (strftime_dmY v) = (year v, month v, day v).
Proof.
  intros Hv Hy. destruct (valid_inv v Hv) as (Hdate & _).
  apply check_date_fields_Ok in Hdate as (Hyr & Hm & Hd).
  pose proof (days_in_month_le_31 (year v) (month v)).
  unfold strftime_dmY. rewrite !pad2_text, show_text4 by lia.
  repeat match goal with
         | |- context [digit_char ?e] =>
             lazymatch goal with
             | _ : Str.ascii_digit (digit_char e) = true /\ _ |- _ => fail
             | _ => pose proof (digit_char_digit e ltac:(Z.div_mod_to_equations; lia))
             end
         end.
  repeat match goal with H : _ /\ _ |- _ => destruct H end.
  cbn [String.append]. split.
  - unfold DDMMYYYY. cbn [fits]. unfold dg.
    repeat match goal with H : Str.ascii_digit _ = true |- _ => rewrite H; clear H end.
    reflexivity.
  - rewrite denoted_eq by (repeat constructor; assumption).
    repeat match goal with H : digit_value _ = _ |- _ => rewrite H; clear H end.
    f_equal; [f_equal|]; Z.div_mod_to_equations; lia.
Qed.

(** X8.  A stored birthday, written by [strftime('%d.%m.%Y')], is
    accepted again at any later moment and gives the same birthday. *)
Theorem birthday_read_back (now : datetime) (v : datetime) :
  DT.valid now = true -> birthday_ok v ->
  not_after (year v) (month v) (day v) now = true ->
  Birthday now (strftime_dmY v) = Ok v.
Proof.
  intros Hnow (Hv & Hm & Hy) Hna.
  destruct (strftime_dmY_pattern v Hv ltac:(lia)) as (Hpat & Hden).
  destruct (valid_inv v Hv) as (Hdate & _).
  destruct (strptime_DDMMYYYY _ _ _ _ Hpat Hden) as [Hok _].
  assert (Ev : v = mkdatetime (year v) (month v) (day v) 0 0 0 0).
  { destruct v as [y m d h mi s us]. destruct Hm as (H1 & H2 & H3 & H4).
    simpl in *. subst. reflexivity. }
  apply Birthday_Ok_iff. rewrite (Hok Hdate). split; [congruence|].
  split; [exact Hy|]. rewrite Ev, (gt_midnight _ _ _ _ Hnow). cbn [year month day].
  rewrite Hna. reflexivity.
Qed.

Lemma birthday_read_back_witness :
  Birthday monday_morning (strftime_dmY (mkdatetime 2000 2 29 0 0 0 0))
  = Ok (mkdatetime 2000 2 29 0 0 0 0).
Proof.
  apply birthday_read_back; [reflexivity | | reflexivity].
  split; [reflexivity|]. split; [repeat split | simpl; lia].
Defined.

(** ** More on the address book *)

Lemma get_set_other (d : book) (k k' : string) (v : record) :
  k' <> k -> Dict.get (Dict.set d k v) k' = Dict.get d k'.
Proof.
  intros Hne. induction d as [|[k0 v0] d IH]; simpl.
  - destruct (String.eqb_spec k k'); [congruence | reflexivity].
  - destruct (String.eqb_spec k0 k) as [->|N]; simpl.
    + destruct (String.eqb_spec k k'); [congruence | reflexivity].
    + destruct (String.eqb k0 k'); [reflexivity | exact IH].
Qed.

Lemma get_del_other (d : book) (k k' : string) :
  k' <> k -> Dict.get (Dict.del d k) k' = Dict.get d k'.
Proof.
  intros Hne. induction d as [|[k0 v0] d IH]; simpl; [reflexivity|].
  destruct (String.eqb_spec k0 k) as [->|N]; simpl.
  - destruct (String.eqb_spec k k'); [congruence | reflexivity].
  - destruct (String.eqb k0 k'); [reflexivity | exact IH].
Qed.

(** [find] looks the trimmed name up, and nothing else of the book matters. *)
Lemma find_get (b : book) (raw : string) :
  Str.strip raw <> EmptyString ->
  AddressBook.find b raw = Ok (Dict.get b (Str.strip raw)).
Proof.
  intros Hne. unfold AddressBook.find, Dict.mem.
  apply truthy_true in Hne. rewrite Hne. simpl.
  destruct (Dict.get b (Str.strip raw)); reflexivity.
Qed.

Lemma find_blank (b : book) (raw : string) :
  Str.strip raw = EmptyString ->
  AddressBook.find b raw = Raise (ValueError "Name must be a non-empty string.").
Proof. unfold AddressBook.find. intros ->. reflexivity. Qed.

Lemma keys_set_present (d : book) (k : string) (v : record) :
  In k (Dict.keys d) -> Dict.keys (Dict.set d k v) = Dict.keys d.
Proof.
  induction d as [|[k0 v0] d IH]; simpl; [tauto|].
  destruct (String.eqb_spec k0 k) as [->|N]; simpl; [reflexivity|].
  intros [E|Hin]; [contradiction|]. rewrite (IH Hin). reflexivity.
Qed.

Lemma keys_set_absent (d : book) (k : string) (v : record) :
  ~ In k (Dict.keys d) -> Dict.keys (Dict.set d k v) = (Dict.keys d ++ [k])%list.
Proof.
  induction d as [|[k0 v0] d IH]; simpl; [reflexivity|].
  destruct (String.eqb_spec k0 k) as [->|N]; simpl; [tauto|].
  intros H. rewrite IH by tauto. reflexivity.
Qed.

(** X9.  [add_record] then [find]: the record is found under its name,
    given with or without white space around it, and the outcome of [find] for
    any other name is as before. *)
Theorem find_after_add_record (b : book) (r : record) (raw : string) :
  Str.strip raw <> EmptyString ->
  (Str.strip raw = name r -> AddressBook.find (AddressBook.add_record b r) raw = Ok (Some r))
  /\ (Str.strip raw <> name r ->
      AddressBook.find (AddressBook.add_record b r) raw = AddressBook.find b raw).
Proof.
  intros Hne. rewrite !find_get by exact Hne. unfold AddressBook.add_record. split.
  - intros ->. rewrite get_set_same. reflexivity.
  - intros N. rewrite get_set_other by exact N. reflexivity.
Qed.

Lemma find_after_add_record_witness :
  AddressBook.find (AddressBook.add_record [("Bob", mkrecord "Bob" [] None)]
                      (mkrecord "Ann" ["0501234567"] None)) " Ann "
  = Ok (Some (mkrecord "Ann" ["0501234567"] None))
  /\ AddressBook.find (AddressBook.add_record [("Bob", mkrecord "Bob" [] None)]
                         (mkrecord "Ann" ["0501234567"] None)) "Bob"
     = AddressBook.find [("Bob", mkrecord "Bob" [] None)] "Bob".
Proof.
  split.
  - apply (proj1 (find_after_add_record [("Bob", mkrecord "Bob" [] None)]
                    (mkrecord "Ann" ["0501234567"] None) " Ann "
                    ltac:(vm_compute; discriminate))).
    reflexivity.
  - apply (proj2 (find_after_add_record [("Bob", mkrecord "Bob" [] None)]
                    (mkrecord "Ann" ["0501234567"] None) "Bob"
                    ltac:(vm_compute; discriminate))).
    vm_compute. discriminate.
Defined.

(** X10.  [add_record] under a name that is in the book replaces the
    record there and keeps the names and their order; under a new name it puts
    the record last. *)
Theorem add_record_keys (b : book) (r : record) :
  (In (name r) (Dict.keys b) ->
   Dict.keys (AddressBook.add_record b r) = Dict.keys b)
  /\ (~ In (name r) (Dict.keys b) ->
      AddressBook.add_record b r = (b ++ [(name r, r)])%list).
Proof.
  unfold AddressBook.add_record. split; [apply keys_set_present|].
  induction b as [|[k0 v0] b IH]; simpl; [reflexivity|].
  destruct (String.eqb_spec k0 (name r)) as [E|N]; [tauto|].
  intros H. rewrite IH by tauto. reflexivity.
Qed.

Lemma add_record_keys_witness :
  Dict.keys (AddressBook.add_record
               [("Ann", mkrecord "Ann" ["0501234567"] None); ("Bob", mkrecord "Bob" [] None)]
               (mkrecord "Ann" [] None))
  = ["Ann"; "Bob"]
  /\ AddressBook.add_record [("Bob", mkrecord "Bob" [] None)] (mkrecord "Ann" [] None)
     = [("Bob", mkrecord "Bob" [] None); ("Ann", mkrecord "Ann" [] None)].
Proof.
  split.
  - apply (proj1 (add_record_keys
                    [("Ann", mkrecord "Ann" ["0501234567"] None);
                     ("Bob", mkrecord "Bob" [] None)] (mkrecord "Ann" [] None))).
    simpl. auto.
  - apply (proj2 (add_record_keys [("Bob", mkrecord "Bob" [] None)] (mkrecord "Ann" [] None))).
    simpl. intros [E|[]]. discriminate E.
Defined.

(** X11.  [delete] touches the record of the name it is given and no
    other: the outcome of [find] for any other name is as before, and when
    [delete] raises the book is as it was. *)
Theorem delete_frame (b : book) (raw : string) :
  (forall q, Str.strip q <> Str.strip raw ->
     AddressBook.find (fst (AddressBook.delete b raw)) q = AddressBook.find b q)
  /\ (forall e, snd (AddressBook.delete b raw) = Raise e ->
        fst (AddressBook.delete b raw) = b).
Proof.
  unfold AddressBook.delete.
  destruct (Str.truthy (Str.strip raw)); simpl; [|split; reflexivity].
  destruct (Dict.mem b (Str.strip raw)); simpl; [|split; reflexivity].
  split; [|discriminate].
  intros q Hq. destruct (string_dec (Str.strip q) EmptyString) as [E|N].
  - rewrite !find_blank by exact E. reflexivity.
  - rewrite !find_get by exact N. rewrite get_del_other by exact Hq. reflexivity.
Qed.

Lemma delete_frame_witness :
  AddressBook.find
    (fst (AddressBook.delete [("Ann", mkrecord "Ann" [] None); ("Bob", mkrecord "Bob" [] None)]
            "Ann")) "Bob"
  = AddressBook.find [("Ann", mkrecord "Ann" [] None); ("Bob", mkrecord "Bob" [] None)] "Bob".
Proof.
  apply (proj1 (delete_frame [("Ann", mkrecord "Ann" [] None); ("Bob", mkrecord "Bob" [] None)]
                  "Ann")).
  vm_compute. discriminate.
Defined.

(** The state of a book filled through the methods. *)
Lemma book_ok_set (b : book) (k : string) (r : record) :
  book_ok b -> record_ok k r -> book_ok (Dict.set b k r).
Proof.
  intros (Hnd & Hall) Hr. split; [apply set_NoDup, Hnd|].
  clear Hnd. induction b as [|[k0 v0] b IH]; simpl.
  - constructor; [exact Hr | constructor].
  - inversion_clear Hall as [|? ? H0 Hb].
    destruct (String.eqb_spec k0 k) as [->|N]; constructor; auto.
Qed.

Lemma book_ok_del (b : book) (k : string) : book_ok b -> book_ok (Dict.del b k).
Proof.
  intros (Hnd & Hall). split; [apply del_NoDup, Hnd|].
  clear Hnd. induction b as [|[k0 v0] b IH]; simpl; [constructor|].
  inversion_clear Hall as [|? ? H0 Hb].
  destruct (String.eqb k0 k); [exact Hb | constructor; auto].
Qed.

Lemma book_ok_get (b : book) (k : string) (r : record) :
  book_ok b -> Dict.get b k = Some r -> record_ok k r.
Proof.
  intros (_ & Hall). induction b as [|[k0 v0] b IH]; simpl; [discriminate|].
  inversion_clear Hall as [|? ? H0 Hb].
  destruct (String.eqb_spec k0 k) as [->|N]; [|auto].
  intros [= <-]. exact H0.
Qed.

Lemma init_record_ok (raw : string) (r : record) :
  Rec.init raw = Ok r -> record_ok (Str.strip raw) r /\ r = mkrecord (Str.strip raw) [] None.
Proof.
  unfold Rec.init. destruct (Name raw) as [n|e] eqn:E; cbn [bind]; [|discriminate].
  intros [= <-]. destruct (Name_fixed _ _ E) as (Hne & Hs & Hn).
  apply Name_Ok_inv in E as (-> & _).
  split; [|reflexivity]. split; [reflexivity|]. split; [exact Hn | constructor].
Qed.

(** X12.  The empty book is well formed, and [add_record] of a record
    that [Record(name)] and the record methods made, and [delete], keep the
    book so: no name twice, every record under its own name, names trimmed and
    not blank, phones of 10 digits. *)
Theorem book_stays_ok (b : book) :
  book_ok AddressBook.empty
  /\ (book_ok b ->
      (forall r, record_ok (name r) r -> book_ok (AddressBook.add_record b r))
      /\ (forall raw, book_ok (fst (AddressBook.delete b raw)))
      /\ (forall raw r, AddressBook.find b raw = Ok (Some r) ->
            name r = Str.strip raw /\ phones_stored r)).
Proof.
  split; [split; constructor|].
  intros Hb. split; [|split].
  - intros r Hr. apply book_ok_set; assumption.
  - intros raw. unfold AddressBook.delete.
    destruct (Str.truthy (Str.strip raw)); simpl; [|exact Hb].
    destruct (Dict.mem b (Str.strip raw)); simpl; [apply book_ok_del, Hb | exact Hb].
  - intros raw r Hf. destruct (string_dec (Str.strip raw) EmptyString) as [E|N].
    + rewrite (find_blank b raw E) in Hf. discriminate.
    + rewrite (find_get b raw N) in Hf. injection Hf as Hf.
      destruct (book_ok_get b _ r Hb Hf) as (Hk & _ & Hp). auto.
Qed.

Lemma book_stays_ok_witness :
  book_ok (AddressBook.add_record [("Bob", mkrecord "Bob" [] None)]
             (mkrecord "Ann" ["0501234567"] None)).
Proof.
  apply (proj1 (proj2 (book_stays_ok [("Bob", mkrecord "Bob" [] None)])
                  ltac:(split; repeat constructor; simpl; tauto))).
  split; [reflexivity|]. split; [reflexivity | repeat constructor].
Defined.

(** ** More on the calendar *)

Lemma month_cases (m : Z) :
  1 <= m <= 12 -> In m [1; 2; 3; 4; 5; 6; 7; 8; 9; 10; 11; 12].
Proof. intros H. simpl. lia. Qed.

Ltac each_month H :=
  apply month_cases in H; simpl in H;
  repeat (destruct H as [H|H]; [subst|]); [..|destruct H].

Ltac eval_tests :=
  eval_tables;
  repeat match goal with
         | |- context [Z.ltb ?a ?b] =>
             let v := eval vm_compute in (Z.ltb a b) in
             change (Z.ltb a b) with v
         | |- context [Z.eqb ?a ?b] =>
             let v := eval vm_compute in (Z.eqb a b) in
             change (Z.eqb a b) with v
         end;
  cbn [andb].

Lemma days_before_year_mono (y y' : Z) :
  y <= y' -> DT.days_before_year y <= DT.days_before_year y'.
Proof. unfold DT.days_before_year. intros H. Z.div_mod_to_equations. lia. Qed.

Lemma days_before_year_succ (y : Z) :
  DT.days_before_year (y + 1)
  = DT.days_before_year y + (if DT.is_leap y then 366 else 365).
Proof.
  unfold DT.days_before_year, DT.is_leap. replace (y + 1 - 1) with y by lia.
  repeat match goal with
         | |- context [?a =? ?b] => destruct (Z.eqb_spec a b)
         end; simpl; Z.div_mod_to_equations; lia.
Qed.

(** The days of a year before a month, with the month, end where the
    next month begins. *)
Lemma days_before_month_bounds (y m d : Z) :
  1 <= m <= 12 -> 1 <= d <= DT.days_in_month y m ->
  1 <= DT.days_before_month y m + d <= (if DT.is_leap y then 366 else 365).
Proof.
  intros Hm Hd. revert Hd. unfold DT.days_before_month, DT.days_in_month.
  each_month Hm; destruct (DT.is_leap y); eval_tests; lia.
Qed.

(** A date lies within its year. *)
Lemma ordinal_in_year (y m d : Z) :
  1 <= m <= 12 -> 1 <= d <= DT.days_in_month y m ->
  DT.days_before_year y < DT.ymd2ord y m d <= DT.days_before_year (y + 1).
Proof.
  intros Hm Hd. pose proof (days_before_month_bounds y m d Hm Hd).
  rewrite days_before_year_succ. unfold DT.ymd2ord. lia.
Qed.

(** Within a year the ordinal follows the order of month and day. *)
Lemma ymd2ord_mono (y m d m' d' : Z) :
  1 <= m <= 12 -> 1 <= d <= DT.days_in_month y m ->
  1 <= m' <= 12 -> 1 <= d' <= DT.days_in_month y m' ->
  (DT.cmp [m; d] [m'; d'] = Lt -> DT.ymd2ord y m d < DT.ymd2ord y m' d')
  /\ (DT.cmp [m; d] [m'; d'] = Eq -> DT.ymd2ord y m d = DT.ymd2ord y m' d').
Proof.
  intros Hm Hd Hm' Hd'. cbn [DT.cmp]. unfold DT.ymd2ord.
  destruct (Z.compare_spec m m') as [->|Hlt|Hgt].
  - destruct (Z.compare_spec d d'); split; try discriminate; intros _; lia.
  - split; [intros _|discriminate].
    revert Hd Hd'. unfold DT.days_before_month, DT.days_in_month.
    each_month Hm; each_month Hm'; try lia; destruct (DT.is_leap y); eval_tests; lia.
  - split; discriminate.
Qed.

Lemma ymd2ord_next_year_le (y m d : Z) :
  DT.ymd2ord (y + 1) m d - DT.ymd2ord y m d <= 366.
Proof.
  unfold DT.ymd2ord, DT.days_before_year, DT.days_before_month, DT.is_leap.
  replace (y + 1 - 1) with y by lia.
  destruct (2 <? m); simpl;
    repeat match goal with
           | |- context [?a =? ?b] => destruct (Z.eqb_spec a b)
           end; simpl; Z.div_mod_to_equations; lia.
Qed.

(** A day that is not 29 February is a day of its month in every year. *)
Lemma day_in_every_year (y0 y m d : Z) :
  1 <= d <= DT.days_in_month y0 m -> ~ (m = 2 /\ d = 29) ->
  1 <= d <= DT.days_in_month y m.
Proof.
  unfold DT.days_in_month. destruct (Z.eqb_spec m 2) as [->|N]; cbn [andb]; [|tauto].
  destruct (DT.is_leap y0), (DT.is_leap y); eval_tests; lia.
Qed.

(** ** More on the query *)

Lemma loop_body_Some (today : datetime) (u u' : record) (c : string) :
  AddressBook.loop_body today u = Ok (Some (c, u')) -> u' = u /\ birthday u <> None.
Proof.
  unfold AddressBook.loop_body. destruct (birthday u); [|discriminate].
  destruct (AddressBook.next_birthday today d); cbn [bind]; [|discriminate].
  destruct (_ <=? _); [|discriminate].
  destruct (AddressBook.shift_weekend a); cbn [bind]; [|discriminate].
  intros [= _ <-]. split; [reflexivity | discriminate].
Qed.

Lemma loop_filter (today : datetime) (users acc : list record) :
  (forall out, AddressBook.loop today users acc = Ok out ->
     out = (acc ++ filter (appended today) users)%list)
  /\ ((forall u, In u users -> forall e, AddressBook.loop_body today u <> Raise e) ->
      AddressBook.loop today users acc = Ok (acc ++ filter (appended today) users)%list).
Proof.
  revert acc. induction users as [|u users IH]; intros acc; cbn [AddressBook.loop filter].
  - rewrite app_nil_r. split; [intros out [= <-]; reflexivity | reflexivity].
  - destruct (AddressBook.loop_body today u) as [[[c u']|]|e] eqn:Eu; cbn [bind].
    + assert (Ha : appended today u = true) by (unfold appended; rewrite Eu; reflexivity).
      rewrite Ha. apply loop_body_Some in Eu as (-> & _).
      destruct (IH (acc ++ [u])%list) as [H1 H2].
      rewrite <- app_assoc in H1, H2. cbn [app] in H1, H2.
      split; [exact H1|]. intros Hno. apply H2. intros u0 Hin. apply Hno. right. exact Hin.
    + assert (Ha : appended today u = false) by (unfold appended; rewrite Eu; reflexivity).
      rewrite Ha. destruct (IH acc) as [H1 H2]. split; [exact H1|].
      intros Hno. apply H2. intros u0 Hin. apply Hno. right. exact Hin.
    + split; [discriminate|]. intros Hno. exfalso. apply (Hno u (or_introl eq_refl) e Eu).
Qed.

(** X13.  When the query returns, it returns the records of the book
    that a turn of the loop appends, each once, in the order of the book; a
    record without a birthday is never among them. *)
Theorem query_filters_in_order (today : datetime) (b : book) (out : list record) :
  AddressBook.get_upcoming_birthday today b = Ok out ->
  out = filter (appended today) (Dict.values b)
  /\ forall r, In r out -> birthday r <> None.
Proof.
  intros H. apply (proj1 (loop_filter today (Dict.values b) [])) in H.
  cbn [app] in H. split; [exact H|].
  intros r Hin. rewrite H in Hin. apply filter_In in Hin as [_ Ha].
  unfold appended in Ha.
  destruct (AddressBook.loop_body today r) as [[[c u']|]|e] eqn:E; try discriminate.
  apply loop_body_Some in E. tauto.
Qed.

Lemma query_filters_in_order_witness :
  [born "Bob" 17 6; born "Cid" 18 6]
  = filter (appended monday_morning)
      (Dict.values [("Ann", born "Ann" 10 6); ("Bob", born "Bob" 17 6);
                    ("Eve", mkrecord "Eve" [] None); ("Cid", born "Cid" 18 6)])
  /\ forall r, In r [born "Bob" 17 6; born "Cid" 18 6] -> birthday r <> None.
Proof.
  apply (query_filters_in_order monday_morning
           [("Ann", born "Ann" 10 6); ("Bob", born "Bob" 17 6);
            ("Eve", mkrecord "Eve" [] None); ("Cid", born "Cid" 18 6)]).
  reflexivity.
Defined.

Lemma replace_year_Ok (t : datetime) (y : Z) :
  1 <= y <= 9999 -> DT.valid t = true -> ~ (month t = 2 /\ day t = 29) ->
  DT.replace_year t y
  = Ok (mkdatetime y (month t) (day t) (hour t) (minute t) (second t) (microsecond t)).
Proof.
  intros Hy Hv Hleap. destruct (valid_inv t Hv) as (Hd & _).
  apply check_date_fields_Ok in Hd as (_ & Hm & Hd).
  unfold DT.replace_year.
  rewrite (proj2 (check_date_fields_Ok y (month t) (day t))); [reflexivity|].
  split; [lia|]. split; [lia|]. eapply day_in_every_year; eassumption.
Qed.

(** The next birthday of a birthday that is not 29 February: on the day
    and month of the birthday, in the year of [today] or in the next. *)
Lemma next_birthday_Ok (today v : datetime) :
  DT.valid today = true -> year today < 9999 ->
  DT.valid v = true -> ~ (month v = 2 /\ day v = 29) ->
  exists y, (y = year today \/ y = year today + 1)
    /\ AddressBook.next_birthday today v
       = Ok (mkdatetime y (month v) (day v) (hour v) (minute v) (second v) (microsecond v))
    /\ 1 <= month v <= 12 /\ 1 <= day v <= DT.days_in_month y (month v).
Proof.
  intros Ht Hy Hv Hleap. destruct (valid_inv today Ht) as (Hd & _).
  apply check_date_fields_Ok in Hd as (Hyr & _).
  destruct (valid_inv v Hv) as (Hdv & _).
  apply check_date_fields_Ok in Hdv as (_ & Hm & Hdd).
  unfold AddressBook.next_birthday.
  rewrite (replace_year_Ok v (year today)) by (assumption || lia). cbn [bind].
  destruct (DT.lt _ today).
  - exists (year today + 1). split; [auto|]. split.
    + unfold DT.replace_year. cbn [year month day hour minute second microsecond].
      rewrite (proj2 (check_date_fields_Ok (year today + 1) (month v) (day v)));
        [reflexivity|].
      split; [lia|]. split; [lia|]. eapply day_in_every_year; eassumption.
    + split; [lia|]. eapply day_in_every_year; eassumption.
  - exists (year today). split; [auto|]. split; [reflexivity|].
    split; [lia|]. eapply day_in_every_year; eassumption.
Qed.

(** X14.  The query returns, without raising, for every book whose
    birthdays are dates of the calendar other than 29 February, at every
    moment up to the year 9997. *)
Theorem query_returns (today : datetime) (b : book) :
  DT.valid today = true -> year today <= 9997 ->
  (forall r v, In r (Dict.values b) -> birthday r = Some v ->
     DT.valid v = true /\ ~ (month v = 2 /\ day v = 29)) ->
  AddressBook.get_upcoming_birthday today b
  = Ok (filter (appended today) (Dict.values b)).
Proof.
  intros Ht Hy Hall. unfold AddressBook.get_upcoming_birthday.
  apply (proj2 (loop_filter today (Dict.values b) [])).
  intros u Hin e. unfold AddressBook.loop_body.
  destruct (birthday u) as [v|] eqn:Hb; [|discriminate].
  destruct (Hall u v Hin Hb) as (Hv & Hleap).
  destruct (next_birthday_Ok today v Ht ltac:(lia) Hv Hleap)
    as (y & Hyy & -> & Hm & Hd). cbn [bind].
  destruct (_ <=? _); [|discriminate].
  set (p := mkdatetime y _ _ _ _ _ _).
  assert (Hord : 0 < DT.toordinal p /\ DT.toordinal p + 2 <= DT.MAXORDINAL).
  { unfold DT.toordinal, p. cbn [year month day].
    pose proof (ordinal_in_year y (month v) (day v) Hm Hd) as Hin_year.
    pose proof (days_before_year_mono 1 y ltac:(destruct (valid_inv today Ht) as (Hd' & _);
                  apply check_date_fields_Ok in Hd'; lia)) as Hlo.
    pose proof (days_before_year_mono (y + 1) 9999 ltac:(lia)) as Hhi.
    change (DT.days_before_year 1) with 0 in Hlo.
    change (DT.days_before_year 9999) with 3651694 in Hhi.
    unfold DT.MAXORDINAL. lia. }
  unfold AddressBook.shift_weekend, DT.add_days.
  assert (H1 : (0 <? DT.toordinal p + 1) && (DT.toordinal p + 1 <=? DT.MAXORDINAL) = true)
    by (apply andb_true_intro; split; [apply Z.ltb_lt | apply Z.leb_le]; lia).
  assert (H2 : (0 <? DT.toordinal p + 2) && (DT.toordinal p + 2 <=? DT.MAXORDINAL) = true)
    by (apply andb_true_intro; split; [apply Z.ltb_lt | apply Z.leb_le]; lia).
  rewrite H1, H2.
  destruct (DT.weekday p =? 5); [|destruct (DT.weekday p =? 6)];
    repeat match goal with
           | |- context [DT.ord2ymd ?n] => destruct (DT.ord2ymd n) as [[? ?] ?]
           end; cbn [bind]; discriminate.
Qed.

Lemma query_returns_witness :
  AddressBook.get_upcoming_birthday monday_morning
    [("Ann", born "Ann" 10 6); ("Bob", born "Bob" 17 6)]
  = Ok (filter (appended monday_morning)
          (Dict.values [("Ann", born "Ann" 10 6); ("Bob", born "Bob" 17 6)])).
Proof.
  apply query_returns; [reflexivity | simpl; lia |].
  intros r v [<-|[<-|[]]] [= <-]; (split; [reflexivity | simpl; lia]).
Defined.

Lemma sub_days_bounds (a b : datetime) (lo hi : Z) :
  midnight a -> DT.valid b = true ->
  lo + 1 <= DT.toordinal a - DT.toordinal b <= hi ->
  lo <= DT.sub_days a b <= hi.
Proof.
  intros (Ha1 & Ha2 & Ha3 & Ha4) Hv Hord.
  destruct (valid_inv b Hv) as (_ & Hh & Hmi & Hs & Hus).
  unfold DT.sub_days, DT.total_us, DT.seconds_of_day.
  rewrite Ha1, Ha2, Ha3, Ha4. split.
  - apply Z.div_le_lower_bound; lia.
  - apply Z.div_le_upper_bound; lia.
Qed.

(** X15.  The next birthday that the query works out is never before
    [today], and the days counted to it are from 0 to 366. *)
Theorem next_birthday_ahead (today v p : datetime) :
  DT.valid today = true -> midnight v ->
  AddressBook.next_birthday today v = Ok p ->
  DT.lt p today = false /\ 0 <= DT.sub_days p today <= 366.
Proof.
  intros Ht (Hh & Hmi & Hs & Hus) Hp.
  destruct (valid_inv today Ht) as (Hdate & Hth & Htm & Hts & Htu).
  apply check_date_fields_Ok in Hdate as (Hyr & Hmt & Hdt).
  revert Hp. unfold AddressBook.next_birthday, DT.replace_year.
  destruct (DT.check_date_fields (year today) (month v) (day v)) as [[]|e] eqn:E1;
    cbn [bind]; [|discriminate].
  apply check_date_fields_Ok in E1 as (_ & Hm & Hd).
  rewrite Hh, Hmi, Hs, Hus.
  set (bty := mkdatetime (year today) (month v) (day v) 0 0 0 0).
  destruct (ymd2ord_mono (year today) (month v) (day v) (month today) (day today)
              Hm Hd Hmt Hdt) as [Hlt Heq].
  destruct (ymd2ord_mono (year today) (month today) (day today) (month v) (day v)
              Hmt Hdt Hm Hd) as [Hlt' Heq'].
  pose proof (ordinal_in_year (year today) (month v) (day v) Hm Hd) as Hin.
  pose proof (ordinal_in_year (year today) (month today) (day today) Hmt Hdt) as Hin'.
  cbn [DT.cmp] in Hlt, Heq, Hlt', Heq'.
  destruct (DT.lt bty today) eqn:Hcmp; unfold bty in *; clear bty.
  - (* the birthday of this year is gone *)
    cbn [year month day hour minute second microsecond].
    destruct (DT.check_date_fields (year today + 1) (month v) (day v)) as [[]|e] eqn:E2;
      cbn [bind]; [|discriminate].
    apply check_date_fields_Ok in E2 as (_ & _ & Hd2). intros [= <-].
    pose proof (ordinal_in_year (year today + 1) (month v) (day v) Hm Hd2) as Hin2.
    pose proof (ymd2ord_next_year_le (year today) (month v) (day v)) as Hnext.
    assert (Hle : DT.ymd2ord (year today) (month v) (day v)
                  <= DT.ymd2ord (year today) (month today) (day today)).
    { revert Hcmp. unfold DT.lt, DT.fields.
      cbn [DT.cmp year month day hour minute second microsecond].
      rewrite Z.compare_refl.
      destruct (Z.compare_spec (month v) (month today));
        [destruct (Z.compare_spec (day v) (day today))| |];
        try discriminate; intros _;
        first [specialize (Hlt eq_refl) | specialize (Heq eq_refl)]; lia. }
    split.
    + unfold DT.lt, DT.fields. cbn [DT.cmp year month day].
      destruct (Z.compare_spec (year today + 1) (year today)); [lia | lia | reflexivity].
    + apply sub_days_bounds; [repeat split | exact Ht |].
      unfold DT.toordinal. cbn [year month day]. lia.
  - intros [= <-]. split; [exact Hcmp|].
    revert Hcmp. unfold DT.lt, DT.fields.
    cbn [DT.cmp year month day hour minute second microsecond].
    rewrite Z.compare_refl.
    destruct (Z.compare_spec (month v) (month today)) as [Em|Hm'|Hm'];
      [destruct (Z.compare_spec (day v) (day today)) as [Ed|Hd'|Hd']| |];
      try discriminate.
    + (* the birthday is today; then [today] is a midnight *)
      destruct (Z.compare_spec 0 (hour today)); try discriminate; try lia.
      destruct (Z.compare_spec 0 (minute today)); try discriminate; try lia.
      destruct (Z.compare_spec 0 (second today)); try discriminate; try lia.
      destruct (Z.compare_spec 0 (microsecond today)); try discriminate; try lia.
      intros _. rewrite sub_days_midnight by (repeat split; auto).
      unfold DT.toordinal. cbn [year month day]. rewrite Em, Ed. lia.
    + intros _. apply sub_days_bounds; [repeat split | exact Ht |].
      unfold DT.toordinal. cbn [year month day].
      rewrite Z.compare_antisym in Hlt'. rewrite Em in *.
      destruct (Z.compare_spec (month today) (month today)); try lia.
      destruct (Z.compare_spec (day today) (day v)); try lia.
      specialize (Hlt' eq_refl). rewrite days_before_year_succ in Hin.
      destruct (DT.is_leap (year today)); lia.
    + intros _. apply sub_days_bounds; [repeat split | exact Ht |].
      unfold DT.toordinal. cbn [year month day].
      destruct (Z.compare_spec (month today) (month v)); try lia.
      specialize (Hlt' eq_refl). rewrite days_before_year_succ in Hin.
      destruct (DT.is_leap (year today)); lia.
Qed.

Lemma next_birthday_ahead_witness :
  DT.lt (mkdatetime 2025 6 10 0 0 0 0) monday_morning = false
  /\ 0 <= DT.sub_days (mkdatetime 2025 6 10 0 0 0 0) monday_morning <= 366.
Proof.
  apply (next_birthday_ahead monday_morning (mkdatetime 1990 6 10 0 0 0 0));
    [reflexivity | repeat split | reflexivity].
Defined.

(** ** The commands *)

Lemma set_set (d : book) (k : string) (v v' : record) :
  Dict.set (Dict.set d k v) k v' = Dict.set d k v'.
Proof.
  induction d as [|[k0 v0] d IH]; simpl.
  - rewrite String.eqb_refl. reflexivity.
  - destruct (String.eqb k0 k) eqn:E; simpl; rewrite E; [reflexivity | rewrite IH; reflexivity].
Qed.

Lemma strip_empty : Str.strip EmptyString = EmptyString.
Proof. reflexivity. Qed.

Lemma find_set (b : book) (k : string) (r : record) (q : string) :
  Str.strip q <> EmptyString ->
  AddressBook.find (Dict.set b k r) q
  = if String.eqb (Str.strip q) k then Ok (Some r) else AddressBook.find b q.
Proof.
  intros Hne. rewrite !find_get by exact Hne.
  destruct (String.eqb_spec (Str.strip q) k) as [->|N].
  - rewrite get_set_same. reflexivity.
  - rewrite get_set_other by exact N. reflexivity.
Qed.

(** X16.  [add_contact] with a name and a valid number: for a name
    that is not in the book it adds a record with that number and answers
    "Contact added."; for a name that is in the book it appends the number to
    the record and answers "Contact updated."; the other records stay. *)
Theorem add_contact_valid (b : book) (who phone v : string) (rest : list string) :
  Str.strip who <> EmptyString -> Phone phone = Ok v ->
  exists b' text found,
    add_contact (who :: phone :: rest) b = (b', text)
    /\ AddressBook.find b' who = Ok (Some found)
    /\ (forall q, Str.strip q <> EmptyString -> Str.strip q <> Str.strip who ->
          AddressBook.find b' q = AddressBook.find b q)
    /\ (AddressBook.find b who = Ok None ->
        text = "Contact added." /\ found = mkrecord (Str.strip who) [v] None)
    /\ (forall r, AddressBook.find b who = Ok (Some r) ->
        text = "Contact updated."
        /\ found = mkrecord (name r) (phones r ++ [v]) (birthday r)).
Proof.
  intros Hne Hv.
  assert (Hp : Str.truthy phone = true).
  { destruct phone; [discriminate Hv | reflexivity]. }
  unfold add_contact, add_contact_body. rewrite (find_get b who Hne).
  destruct (Dict.get b (Str.strip who)) as [r|] eqn:Eg.
  - rewrite Hp. unfold Rec.add_phone. rewrite Hv.
    eexists _, _, _. split; [reflexivity|]. split; [|split; [|split]].
    + rewrite find_set, String.eqb_refl by exact Hne. reflexivity.
    + intros q Hq Hqn. rewrite find_set by exact Hq.
      destruct (String.eqb_spec (Str.strip q) (Str.strip who)); [contradiction|reflexivity].
    + discriminate.
    + intros r' [= <-]. split; reflexivity.
  - unfold Rec.init, Name. apply truthy_true in Hne as Ht. rewrite Ht. cbn [negb bind].
    rewrite Hp. unfold Rec.add_phone. rewrite Hv. unfold AddressBook.add_record.
    cbn [name phones Rec.set_phones birthday app]. rewrite set_set.
    eexists _, _, _. split; [reflexivity|]. split; [|split; [|split]].
    + rewrite find_set, String.eqb_refl by exact Hne. reflexivity.
    + intros q Hq Hqn. rewrite find_set by exact Hq.
      destruct (String.eqb_spec (Str.strip q) (Str.strip who)); [contradiction|reflexivity].
    + intros _. split; reflexivity.
    + discriminate.
Qed.

Lemma add_contact_valid_witness :
  exists b' text found,
    add_contact ["Ann"; "0501234567"] [("Bob", mkrecord "Bob" [] None)] = (b', text)
    /\ AddressBook.find b' "Ann" = Ok (Some found)
    /\ text = "Contact added." /\ found = mkrecord "Ann" ["0501234567"] None.
Proof.
  destruct (add_contact_valid [("Bob", mkrecord "Bob" [] None)] "Ann" "0501234567"
              "0501234567" [] ltac:(vm_compute; discriminate) eq_refl)
    as (b' & text & found & H1 & H2 & _ & H3 & _).
  exists b', text, found. split; [exact H1|]. split; [exact H2|]. apply H3. reflexivity.
Defined.

(** X17.  [add_contact] with a new name and a number that [Phone]
    refuses answers with the usage text, and yet the contact is in the book
    afterwards, with no phone: the record is added before the number is
    checked.  For a name that is in the book, the book stays as it is. *)
Theorem add_contact_invalid_phone (b : book) (who phone : string) (rest : list string) (e : exn) :
  Str.strip who <> EmptyString -> phone <> EmptyString -> Phone phone = Raise e ->
  (AddressBook.find b who = Ok None ->
   add_contact (who :: phone :: rest) b
   = (AddressBook.add_record b (mkrecord (Str.strip who) [] None), usage)
   /\ AddressBook.find (AddressBook.add_record b (mkrecord (Str.strip who) [] None)) who
      = Ok (Some (mkrecord (Str.strip who) [] None)))
  /\ (forall r, AddressBook.find b who = Ok (Some r) ->
      add_contact (who :: phone :: rest) b = (b, usage)).
Proof.
  intros Hne Hp He. apply truthy_true in Hp.
  destruct (Phone_cases phone) as [H|(msg & H)]; [congruence|].
  unfold add_contact, add_contact_body. rewrite (find_get b who Hne).
  split.
  - intros [= ->]. unfold Rec.init, Name. apply truthy_true in Hne as Ht. rewrite Ht.
    cbn [negb bind]. rewrite Hp. unfold Rec.add_phone. rewrite H.
    split; [reflexivity|]. unfold AddressBook.add_record. cbn [name].
    rewrite find_set, String.eqb_refl by exact Hne. reflexivity.
  - intros r [= ->]. rewrite Hp. unfold Rec.add_phone. rewrite H. reflexivity.
Qed.

Lemma add_contact_invalid_phone_witness :
  add_contact ["Ann"; "12345"] [] = ([("Ann", mkrecord "Ann" [] None)], usage)
  /\ AddressBook.find [("Ann", mkrecord "Ann" [] None)] "Ann"
     = Ok (Some (mkrecord "Ann" [] None)).
Proof.
  apply (proj1 (add_contact_invalid_phone [] "Ann" "12345" []
                  (ValueError "Phone number must be 10 digits long.")
                  ltac:(vm_compute; discriminate) ltac:(discriminate) eq_refl)).
  reflexivity.
Defined.

(** X18.  [change_contact] changes the book only when it answers
    "Contact updated.", and then only the record of the name, in which
    [edit_phone] has succeeded; with any other answer the book is as it was. *)
Theorem change_contact_atomic (args : list string) (b : book) :
  (snd (change_contact args b) <> "Contact updated." -> fst (change_contact args b) = b)
  /\ (snd (change_contact args b) = "Contact updated." ->
      exists who old_phone new_phone r r',
        args = [who; old_phone; new_phone]
        /\ AddressBook.find b who = Ok (Some r)
        /\ Rec.edit_phone r old_phone new_phone = (r', Ok tt)
        /\ fst (change_contact args b) = Dict.set b (Str.strip who) r').
Proof.
  unfold change_contact, change_contact_body.
  destruct args as [|who [|old_phone [|new_phone [|x rest]]]];
    try (split; [reflexivity | discriminate]).
  destruct (AddressBook.find b who) as [[r|]|e] eqn:Ef;
    [| split; [reflexivity | discriminate]
     | split; [reflexivity | destruct e; discriminate]].
  destruct (Rec.find_phone r old_phone) as [[x|]|e] eqn:Ep;
    [| split; [reflexivity | discriminate]
     | split; [reflexivity | destruct e; discriminate]].
  destruct (Rec.edit_phone r old_phone new_phone) as [r' [[]|e]] eqn:Ee.
  - split; [intros H; exfalso; apply H; reflexivity|].
    intros _. exists who, old_phone, new_phone, r, r'. auto.
  - split; [reflexivity|]. destruct e; intros H; cbv in H; discriminate H.
Qed.

Lemma change_contact_atomic_witness :
  fst (change_contact ["Ann"; "0501234567"; "12ab"]
         [("Ann", mkrecord "Ann" ["0501234567"] None)])
  = [("Ann", mkrecord "Ann" ["0501234567"] None)].
Proof.
  apply (proj1 (change_contact_atomic ["Ann"; "0501234567"; "12ab"]
                  [("Ann", mkrecord "Ann" ["0501234567"] None)])).
  vm_compute. discriminate.
Defined.

Lemma record_ok_same_name (k : string) (r r' : record) :
  record_ok k r -> name r' = name r -> phones_stored r' -> record_ok k r'.
Proof. intros (Hk & Hn & _) Hname Hp. split; [congruence|]. split; assumption. Qed.

Lemma find_record_ok (b : book) (who : string) (r : record) :
  book_ok b -> AddressBook.find b who = Ok (Some r) -> record_ok (Str.strip who) r.
Proof.
  intros Hb Hf. destruct (string_dec (Str.strip who) EmptyString) as [E|N].
  - rewrite (find_blank b who E) in Hf. discriminate.
  - rewrite (find_get b who N) in Hf. injection Hf as Hf.
    exact (book_ok_get b _ r Hb Hf).
Qed.

(** X19.  The commands that change the book keep it well formed: after
    [add_contact], [change_contact] and [add_birthday], whatever the arguments
    and whether they succeed or not, no name is there twice, every record is
    under its own name, and names and phones are as the fields store them. *)
Theorem commands_keep_book_ok (now : datetime) (args : list string) (b : book) :
  book_ok b ->
  book_ok (fst (add_contact args b))
  /\ book_ok (fst (change_contact args b))
  /\ book_ok (fst (add_birthday now args b)).
Proof.
  intros Hb. split; [|split].
  - unfold add_contact, add_contact_body.
    destruct args as [|who [|phone rest]]; try exact Hb.
    destruct (AddressBook.find b who) as [[r|]|e] eqn:Ef; [| |exact Hb].
    + pose proof (find_record_ok b who r Hb Ef) as Hr.
      destruct (Str.truthy phone); [|exact Hb].
      pose proof (add_phone_stored r phone (proj2 (proj2 Hr))) as Hst.
      unfold Rec.add_phone in *. destruct (Phone phone) as [v|e]; [|exact Hb].
      apply book_ok_set; [exact Hb|].
      eapply record_ok_same_name; [exact Hr | reflexivity | exact Hst].
    + destruct (Rec.init who) as [r|e] eqn:Ei; cbn [bind]; [|exact Hb].
      destruct (init_record_ok who r Ei) as (Hr & ->).
      assert (Hb1 : book_ok (AddressBook.add_record b (mkrecord (Str.strip who) [] None)))
        by (apply book_ok_set; assumption).
      destruct (Str.truthy phone); [|exact Hb1].
      pose proof (add_phone_stored (mkrecord (Str.strip who) [] None) phone
                    (proj2 (proj2 Hr))) as Hst.
      unfold Rec.add_phone in *. destruct (Phone phone) as [v|e]; [|exact Hb1].
      apply book_ok_set; [exact Hb1|].
      eapply record_ok_same_name; [exact Hr | reflexivity | exact Hst].
  - unfold change_contact, change_contact_body.
    destruct args as [|who [|old_phone [|new_phone [|x rest]]]]; try exact Hb.
    destruct (AddressBook.find b who) as [[r|]|e] eqn:Ef; try exact Hb.
    pose proof (find_record_ok b who r Hb Ef) as Hr.
    destruct (Rec.find_phone r old_phone) as [[x|]|e]; try exact Hb.
    pose proof (edit_phone_stored r old_phone new_phone (proj2 (proj2 Hr))) as Hst.
    unfold Rec.edit_phone in *.
    destruct (Rec.edit_loop (phones r) old_phone new_phone) as [ps [[]|e]]; [|exact Hb].
    apply book_ok_set; [exact Hb|].
    eapply record_ok_same_name; [exact Hr | reflexivity | exact Hst].
  - unfold add_birthday, add_birthday_body.
    destruct args as [|who [|bd [|x rest]]]; try exact Hb.
    destruct (AddressBook.find b who) as [[r|]|e] eqn:Ef; try exact Hb.
    pose proof (find_record_ok b who r Hb Ef) as Hr.
    unfold Rec.add_birthday. destruct (Birthday now bd) as [v|e]; [|exact Hb].
    apply book_ok_set; [exact Hb|].
    eapply record_ok_same_name; [exact Hr | reflexivity | exact (proj2 (proj2 Hr))].
Qed.

Lemma commands_keep_book_ok_witness :
  book_ok (fst (add_contact ["Ann"; "0501234567"] [("Bob", mkrecord "Bob" [] None)])).
Proof.
  apply (proj1 (commands_keep_book_ok monday_morning ["Ann"; "0501234567"]
                  [("Bob", mkrecord "Bob" [] None)]
                  ltac:(split; repeat constructor; simpl; tauto))).
Defined.

(** X20.  A birthday given in the pattern DD.MM.YYYY to the command
    [add_birthday] and accepted is what [contact_birthday] then shows for the
    contact, character by character. *)
Theorem birthday_command_round_trip (now : datetime) (b : book) (who s : string)
  (r : record) (v : datetime) :
  book_ok b -> AddressBook.find b who = Ok (Some r) ->
  DDMMYYYY s = true -> Birthday now s = Ok v ->
  exists b', add_birthday now [who; s] b = (b', "Birthday added.")
    /\ contact_birthday [who] b' = Str.strip who ++ "'s birthday is on " ++ s ++ ".".
Proof.
  intros Hb Hf Hs Hv. destruct (find_record_ok b who r Hb Hf) as (Hk & _).
  assert (Hne : Str.strip who <> EmptyString).
  { intros E. rewrite (find_blank b who E) in Hf. discriminate. }
  unfold add_birthday, add_birthday_body. rewrite Hf.
  unfold Rec.add_birthday. rewrite Hv.
  eexists. split; [reflexivity|].
  unfold contact_birthday. rewrite find_set, String.eqb_refl by exact Hne.
  cbn [bind birthday]. unfold decorated, input_error, birthday_text. cbn [name].
  rewrite (strftime_dmY_typed now s v Hs Hv), <- Hk. reflexivity.
Qed.

Lemma birthday_command_round_trip_witness :
  exists b', add_birthday monday_morning ["Ann"; "24.12.1990"]
               [("Ann", mkrecord "Ann" [] None)] = (b', "Birthday added.")
    /\ contact_birthday ["Ann"] b' = "Ann's birthday is on 24.12.1990.".
Proof.
  apply (birthday_command_round_trip monday_morning [("Ann", mkrecord "Ann" [] None)]
           "Ann" "24.12.1990" (mkrecord "Ann" [] None) (mkdatetime 1990 12 24 0 0 0 0));
    try reflexivity.
  split; repeat constructor; simpl; tauto.
Defined.

(** ** Reading a command *)















(** ** Saving *)



(** ** The window and the congratulation date, in days of the calendar *)

(** X23.  With the next birthday at a midnight, a record is passed over
    when that day is more than 7 days of the calendar after the day of [today]
    if [today] is a midnight itself, and more than 8 days after it at any
    other time of the day. *)
Theorem window_in_calendar_days (today v p : datetime) (r : record) :
  DT.valid today = true -> birthday r = Some v ->
  AddressBook.next_birthday today v = Ok p -> midnight p ->
  (midnight today ->
   (AddressBook.loop_body today r = Ok None <-> 7 < DT.toordinal p - DT.toordinal today))
  /\ (~ midnight today ->
      (AddressBook.loop_body today r = Ok None <-> 8 < DT.toordinal p - DT.toordinal today)).
Proof.
  intros Ht Hb Hp Hm. split; intros Hmid.
  - exact (window_at_midnight today v p r Hb Hp Hmid Hm).
  - exact (window_in_the_day today v p r Hb Hp Ht Hmid Hm).
Qed.

Lemma window_in_calendar_days_witness :
  AddressBook.loop_body monday_morning (born "Dan" 19 6) = Ok None
  <-> 8 < DT.toordinal (mkdatetime 2024 6 19 0 0 0 0) - DT.toordinal monday_morning.
Proof.
  apply (proj2 (window_in_calendar_days monday_morning (mkdatetime 1990 6 19 0 0 0 0)
                  (mkdatetime 2024 6 19 0 0 0 0) (born "Dan" 19 6)
                  eq_refl eq_refl eq_refl ltac:(repeat split))).
  unfold midnight. simpl. lia.
Defined.

(** X24.  With a record whose birthday is 29 February anywhere in the
    book, the query raises at every moment of a year that is not a leap
    year, whatever the other records are. *)
Theorem query_raises_on_leap_day (today v : datetime) (b : book) (r : record) :
  In r (Dict.values b) -> birthday r = Some v ->
  month v = 2 -> day v = 29 -> DT.is_leap (year today) = false ->
  exists e, AddressBook.get_upcoming_birthday today b = Raise e.
Proof. exact (leap_day_raises today v b r). Qed.

Lemma query_raises_on_leap_day_witness :
  exists e, AddressBook.get_upcoming_birthday (mkdatetime 2023 6 10 10 0 0 0)
              [("Ann", born "Ann" 10 6); ("Lea", leapling)] = Raise e.
Proof.
  apply (query_raises_on_leap_day (mkdatetime 2023 6 10 10 0 0 0)
           (mkdatetime 2000 2 29 0 0 0 0)
           [("Ann", born "Ann" 10 6); ("Lea", leapling)] leapling);
    try reflexivity.
  simpl. auto.
Defined.

Lemma weekday_range (t : datetime) : 0 <= DT.weekday t <= 6.
Proof. unfold DT.weekday. Z.div_mod_to_equations. lia. Qed.

(** X25.  When a turn of the loop appends a record, the next birthday
    is counted at most 7 days away, and the congratulation date worked out is
    that day itself when it is a day from Monday to Friday, the day 2 days
    later when it is a Saturday and the day 1 day later when it is a Sunday,
    which in both cases is the Monday after; so it is always a day from Monday
    to Friday. *)
Theorem congratulation_date_on_weekday (today : datetime) (r r' : record) (c : string) :
  AddressBook.loop_body today r = Ok (Some (c, r')) ->
  exists v p s,
    birthday r = Some v /\ AddressBook.next_birthday today v = Ok p
    /\ DT.sub_days p today <= 7
    /\ c = DT.strftime_Ymd s
    /\ (DT.weekday p <= 4 -> s = p)
    /\ (DT.weekday p = 5 ->
        DT.add_days p 2 = Ok s /\ DT.toordinal s = DT.toordinal p + 2 /\ DT.weekday s = 0)
    /\ (DT.weekday p = 6 ->
        DT.add_days p 1 = Ok s /\ DT.toordinal s = DT.toordinal p + 1 /\ DT.weekday s = 0)
    /\ 0 <= DT.weekday s <= 4.
Proof.
  unfold AddressBook.loop_body. destruct (birthday r) as [v|]; [|discriminate].
  destruct (AddressBook.next_birthday today v) as [p|e] eqn:Ep; cbn [bind]; [|discriminate].
  unfold AddressBook.period_days.
  destruct (Z.leb_spec (DT.sub_days p today) 7) as [Hle|]; [|discriminate].
  destruct (AddressBook.shift_weekend p) as [s|e] eqn:Es; cbn [bind]; [|discriminate].
  intros [= <- _]. exists v, p, s.
  split; [reflexivity|]. split; [exact Ep|]. split; [exact Hle|].
  split; [reflexivity|].
  destruct (shift_weekend_spec p s Es) as (H5 & H6 & Hother).
  pose proof (weekday_range p) as Hr.
  revert Es. unfold AddressBook.shift_weekend.
  destruct (Z.eqb_spec (DT.weekday p) 5) as [E5|N5];
    [|destruct (Z.eqb_spec (DT.weekday p) 6) as [E6|N6]]; intros Es.
  - split; [lia|]. split; [|split; [lia | destruct (H5 E5); lia]].
    intros _. split; [exact Es | exact (H5 E5)].
  - split; [lia|]. split; [lia|]. split; [|destruct (H6 E6); lia].
    intros _. split; [exact Es | exact (H6 E6)].
  - split; [intros _; exact (Hother N5 N6)|].
    split; [intros; contradiction|]. split; [intros; contradiction|].
    rewrite (Hother N5 N6). lia.
Qed.

Lemma congratulation_date_on_weekday_witness :
  exists v p s,
    birthday (born "Ann" 15 6) = Some v
    /\ AddressBook.next_birthday monday_morning v = Ok p
    /\ DT.sub_days p monday_morning <= 7
    /\ "2024.06.17" = DT.strftime_Ymd s
    /\ (DT.weekday p = 5 ->
        DT.add_days p 2 = Ok s /\ DT.toordinal s = DT.toordinal p + 2 /\ DT.weekday s = 0)
    /\ 0 <= DT.weekday s <= 4.
Proof.
  destruct (congratulation_date_on_weekday monday_morning (born "Ann" 15 6) (born "Ann" 15 6)
              "2024.06.17" eq_refl) as (v & p & s & H1 & H2 & H3 & H4 & _ & H5 & _ & H6).
  exists v, p, s. auto 10.
Defined.
